(** * Preprocessing pipeline of the Spaceship Titanic model (src/src/train.js,
      src/src/prediction.js, src/unnamed/part_001)

    A shallow embedding of the preprocessing code: the statistics pass over
    the numeric columns, the vocabulary pass over the categorical columns,
    the one-hot layout, the row encoders of training and of inference, the
    label encoders, the persisted artifact and the inference shape check.

    JavaScript numbers are IEEE-754 binary64 values, modelled with the
    Standard Library's [spec_float] at precision 53 and exponent bound 1024,
    so every arithmetic step rounds as the JavaScript engine does. *)

From Stdlib Require Import ZArith List String Ascii Bool Lia.
From Stdlib Require Import Sorted Permutation.
From Stdlib Require Import SpecFloat.
Import ListNotations.

Open Scope string_scope.
Open Scope list_scope.

(** ** Binary64 numbers *)

Abbreviation float := spec_float.

Definition prec : Z := 53.
Definition emax : Z := 1024.

Definition fadd : float -> float -> float := SFadd prec emax.
Definition fsub : float -> float -> float := SFsub prec emax.
Definition fmul : float -> float -> float := SFmul prec emax.
Definition fdiv : float -> float -> float := SFdiv prec emax.
Definition fsqrt : float -> float := SFsqrt prec emax.

(** [+0]; the arrays of the code are filled with it ([new Array(n).fill(0)]). *)
Definition fzero : float := S754_zero false.

(** The binary64 value nearest to an integer (exact below 2^53). *)
Definition float_of_Z (n : Z) : float := binary_normalize prec emax n 0 false.

Definition float_of_nat (n : nat) : float := float_of_Z (Z.of_nat n).

Definition fone : float := float_of_Z 1.

(** The literal [1e-12]: the binary64 value nearest to 1/10^12, which is the
    correctly rounded quotient of the exact values 1 and 10^12. *)
Definition f1em12 : float := fdiv fone (float_of_Z (10 ^ 12)).

(** [Number.isFinite] on a number. *)
Definition is_finite (x : float) : bool :=
  match x with
  | S754_zero _ | S754_finite _ _ _ => true
  | _ => false
  end.

Definition is_nan (x : float) : bool :=
  match x with S754_nan => true | _ => false end.

(** [x > y], [x === y] on numbers: false as soon as one side is NaN. *)
Definition fgt (x y : float) : bool := SFltb y x.
Definition feq (x y : float) : bool := SFeqb x y.

(** [Math.max(x, y)]: NaN if either argument is NaN, +0 preferred to -0. *)
Definition js_max (x y : float) : float :=
  if is_nan x || is_nan y then S754_nan
  else if SFltb x y then y
  else if SFltb y x then x
  else match x with S754_zero true => y | _ => x end.

(** ** Rows as [tf.data.csv] yields them

    A cell is a number (any text [Number(...)] parses), a string, or
    undefined (an empty field); booleans and null are kept for the label
    encoders, which test for them. *)

Inductive value :=
| VNum (x : float)
| VStr (s : string)
| VBool (b : bool)
| VNull
| VUndef.

(** A row object [xs] (or [ys]): its own properties in order. Reading a
    property it does not have gives [undefined]. *)
Definition row := list (string * value).

Fixpoint get (xs : row) (k : string) : value :=
  match xs with
  | [] => VUndef
  | (k', v) :: rest => if String.eqb k k' then v else get rest k
  end.

(** One element of the training dataset: [{ xs, ys }]. *)
Record example := { xs : row; ys : row }.

(** [typeof v === 'number'] *)
Definition is_number (v : value) : bool :=
  match v with VNum _ => true | _ => false end.

(** [typeof v === 'number' && Number.isFinite(v)], returning the number. *)
Definition finite_number (v : value) : option float :=
  match v with
  | VNum x => if is_finite x then Some x else None
  | _ => None
  end.

(** Association lists stand for the objects keyed by feature name
    ([vocabSets], [vocabByFeature], [indexByFeature], [oneHotOffsets]):
    their keys are feature names, own properties written by the code. *)
Fixpoint aget {A} (o : list (string * A)) (k : string) : option A :=
  match o with
  | [] => None
  | (k', v) :: rest => if String.eqb k k' then Some v else aget rest k
  end.

(** [o[k] = v]: an existing property keeps its place, a new one is appended. *)
Fixpoint aset {A} (o : list (string * A)) (k : string) (v : A) : list (string * A) :=
  match o with
  | [] => [(k, v)]
  | (k', v') :: rest => if String.eqb k k' then (k', v) :: rest else (k', v') :: aset rest k v
  end.

(** [featureNames[i]]; out of range it is [undefined], which as a property
    key reads ["undefined"]. *)
Definition feature_name (featureNames : list string) (i : nat) : string :=
  nth i featureNames "undefined".

(** ** Schema: the first row decides which columns are numeric *)

Definition first_xs (rows : list example) : row :=
  match rows with [] => [] | e :: _ => xs e end.

(** [featureNames = Object.keys(xs)] of the first row ([[]] on an empty file). *)
Definition schema_featureNames (rows : list example) : list string :=
  map fst (first_xs rows).

(** The [forEach] that pushes [idx] onto [numericIndices] or [stringIndices]. *)
Definition schema_numericIndices (rows : list example) : list nat :=
  let names := schema_featureNames rows in
  filter (fun idx => is_number (get (first_xs rows) (feature_name names idx)))
         (seq 0 (List.length names)).

Definition schema_stringIndices (rows : list example) : list nat :=
  let names := schema_featureNames rows in
  filter (fun idx => negb (is_number (get (first_xs rows) (feature_name names idx))))
         (seq 0 (List.length names)).

(** ** The statistics pass (train.js, lines 59-82)

    [sums[pos]], [sumSquares[pos]] and [counts[pos]] of the code are kept
    together as the [pos]-th [acc]. Counts are whole numbers below 2^53,
    exact in binary64; they are kept as [nat]. *)

Record acc := { sum : float; sumSquare : float; count : nat }.

Definition acc0 : acc := {| sum := fzero; sumSquare := fzero; count := 0 |}.

(** [if (typeof v === 'number' && Number.isFinite(v)) { sums[pos] += v;
    sumSquares[pos] += v * v; counts[pos] += 1; }] *)
Definition acc_step (v : value) (a : acc) : acc :=
  match finite_number v with
  | Some f => {| sum := fadd (sum a) f;
                 sumSquare := fadd (sumSquare a) (fmul f f);
                 count := S (count a) |}
  | None => a
  end.

(** The body of [numericIndices.forEach((colIdx, pos) => ...)] for one row. *)
Fixpoint accum_row (featureNames : list string) (x : row)
    (numericIndices : list nat) (st : list acc) : list acc :=
  match numericIndices, st with
  | colIdx :: cols, a :: st' =>
      acc_step (get x (feature_name featureNames colIdx)) a
        :: accum_row featureNames x cols st'
  | _, _ => st
  end.

(** [rawDataset.forEachAsync(...)]: one pass, from all-zero accumulators. *)
Definition stats_pass (featureNames : list string) (numericIndices : list nat)
    (rows : list example) : list acc :=
  fold_left (fun st e => accum_row featureNames (xs e) numericIndices st)
            rows (repeat acc0 (List.length numericIndices)).

(** [sums.map((s, i) => counts[i] > 0 ? s / counts[i] : 0)] *)
Definition mean_of (a : acc) : float :=
  if Nat.ltb 0 (count a) then fdiv (sum a) (float_of_nat (count a)) else fzero.

(** The variance [var_] of the code, for [counts[i] > 0]. *)
Definition var_of (a : acc) (m : float) : float :=
  let meanSq := fdiv (sumSquare a) (float_of_nat (count a)) in
  fsub meanSq (fmul m m).

(** [numericMeans.map((m, i) => ...)] *)
Definition std_of (a : acc) (m : float) : float :=
  if Nat.eqb (count a) 0 then fone
  else fsqrt (js_max (var_of a m) f1em12).

Definition numericMeans_of (st : list acc) : list float := map mean_of st.

Definition numericStds_of (st : list acc) : list float :=
  map (fun a => std_of a (mean_of a)) st.

(** *** The statistics pass of the earlier script
    (src/unnamed/part_000, lines 39-54): the same pass without
    [sumSquares], a sum and a count per column. *)

Definition old_acc_step (v : value) (a : float * nat) : float * nat :=
  match finite_number v with
  | Some f => (fadd (fst a) f, S (snd a))
  | None => a
  end.

Fixpoint old_accum_row (featureNames : list string) (x : row)
    (numericIndices : list nat) (st : list (float * nat)) : list (float * nat) :=
  match numericIndices, st with
  | colIdx :: cols, a :: st' =>
      old_acc_step (get x (feature_name featureNames colIdx)) a
        :: old_accum_row featureNames x cols st'
  | _, _ => st
  end.

Definition old_stats_pass (featureNames : list string) (numericIndices : list nat)
    (rows : list example) : list (float * nat) :=
  fold_left (fun st e => old_accum_row featureNames (xs e) numericIndices st)
            rows (repeat (fzero, 0) (List.length numericIndices)).

(** [sums.map((s, i) => counts[i] > 0 ? s / counts[i] : 0)] *)
Definition old_numericMeans (st : list (float * nat)) : list float :=
  map (fun '(s, c) => if Nat.ltb 0 c then fdiv s (float_of_nat c) else fzero) st.

(** *** The decision of prediction.js (line 109) *)

(** The literal [0.5]. *)
Definition fhalf : float := fdiv fone (float_of_Z 2).

(** [probArray.map(p => p >= 0.5)]: [0.5 <= p], false when [p] is NaN. *)
Definition predictions_of (probArray : list float) : list bool :=
  map (fun p => SFleb fhalf p) probArray.

(** ** Token-to-index maps: plain JavaScript objects

    [const map = {}; vocab.forEach((tok, idx) => map[tok] = idx)] builds an
    ordinary object, which inherits the properties of [Object.prototype].
    Reading [map[k]] gives the own property if there is one, otherwise the
    inherited one: a function for the method names below, the prototype
    object itself for ["__proto__"], and [undefined] for any other key.
    Writing [map["__proto__"] = idx] goes through the inherited setter,
    which ignores a number, so it creates no own property. *)

Definition object_prototype_keys : list string :=
  [ "constructor"; "__defineGetter__"; "__defineSetter__"; "hasOwnProperty";
    "__lookupGetter__"; "__lookupSetter__"; "isPrototypeOf";
    "propertyIsEnumerable"; "toString"; "valueOf"; "__proto__";
    "toLocaleString" ].

(** The own properties of a token map: token and index. *)
Definition tokmap := list (string * nat).

(** What [map[k]] reads: [undefined], an index, or an inherited function or
    object (which [>= 0] and [< size] both turn into NaN, hence false). *)
Inductive prop_read :=
| PUndefined
| PIndex (n : nat)
| PInherited.

Definition obj_get (m : tokmap) (k : string) : prop_read :=
  match aget m k with
  | Some n => PIndex n
  | None => if existsb (String.eqb k) object_prototype_keys then PInherited else PUndefined
  end.

Definition obj_set (m : tokmap) (k : string) (n : nat) : tokmap :=
  if String.eqb k "__proto__" then m else aset m k n.

(** [vocab.forEach((tok, idx) => map[tok] = idx)] on a fresh [{}]. *)
Definition build_map (vocab : list string) : tokmap :=
  fold_left (fun m '(tok, idx) => obj_set m tok idx)
            (combine vocab (seq 0 (List.length vocab))) [].

(** ** [Array.prototype.sort] with no comparator

    Elements are compared as strings, code unit by code unit; a string is
    modelled as its sequence of characters, compared by [String.compare].
    On distinct elements every correct sort gives the same result; this is
    insertion sort. *)

Fixpoint insert_sorted (x : string) (l : list string) : list string :=
  match l with
  | [] => [x]
  | y :: l' =>
      match String.compare x y with
      | Gt => y :: insert_sorted x l'
      | _ => x :: y :: l'
      end
  end.

Definition js_sort (l : list string) : list string := fold_right insert_sorted [] l.

(** The order [sort] uses: [s] before or equal to [t], strictly before. *)
Definition str_le (s t : string) : Prop := String.compare s t <> Gt.
Definition str_lt (s t : string) : Prop := String.compare s t = Lt.

(** [new Set()], [set.has], [set.add]: insertion order, no duplicates. *)
Definition set_has (s : list string) (x : string) : bool := existsb (String.eqb x) s.

Definition set_add (s : list string) (x : string) : list string :=
  if set_has s x then s else s ++ [x].

Definition MISSING : string := "__MISSING__".

(** ** Layout, artifact and encoded vectors *)

(** [oneHotOffsets[name] = { offset, size }] *)
Definition offsets := list (string * (nat * nat)).

(** The object persisted to [preprocessing.json] (train.js, lines 252-261). *)
Record artifact := {
  featureNames : list string;
  numericIndices : list nat;
  stringIndices : list nat;
  numericMeans : list float;
  numericStds : list float;
  vocabByFeature : list (string * list string);
  oneHotOffsets : offsets;
  totalDim : nat
}.

(** The entries of [vec]: a number, or a hole left when an assignment past
    the end of the array extends it. *)
Inductive cell :=
| Num (x : float)
| Hole.

(** [vec[i] = x] on a JavaScript array. *)
Fixpoint js_set (vec : list cell) (i : nat) (x : cell) : list cell :=
  match vec, i with
  | [], _ => repeat Hole i ++ [x]
  | _ :: rest, 0 => x :: rest
  | c :: rest, S i' => c :: js_set rest i' x
  end.

(** [new Array(n).fill(0)] *)
Definition zeros (n : nat) : list cell := repeat (Num fzero) n.

(** [vocabByFeature[name]] for a name that has one. *)
Definition vocab_of (vbf : list (string * list string)) (name : string) : list string :=
  match aget vbf name with Some v => v | None => [] end.

(** The [stringIndices.forEach] of train.js, lines 169-175: the blocks and
    the final [totalDim], starting from [totalDim = numericIndices.length]. *)
Definition layout (names : list string) (vbf : list (string * list string))
    (sIdx : list nat) (numCount : nat) : offsets * nat :=
  fold_left (fun '(offs, td) i =>
               let name := feature_name names i in
               let size := List.length (vocab_of vbf name) in
               (aset offs name (td, size), td + size))
            sIdx ([], numCount).

(** ** The passes that stringify cells *)

Section Pipeline.

(** [String(x)] for a number [x] (Number::toString). Categorical columns
    hold strings unless a later row parses as a number; no result below
    depends on how such a number is rendered. *)
Variable number_to_string : float -> string.

(** [String(v)] *)
Definition js_String (v : value) : string :=
  match v with
  | VNum x => number_to_string x
  | VStr s => s
  | VBool true => "true"
  | VBool false => "false"
  | VNull => "null"
  | VUndef => "undefined"
  end.

(** [if (v === null || v === undefined || v === '') v = '__MISSING__';
    v = String(v);] *)
Definition token (v : value) : string :=
  js_String
    (match v with
     | VNull | VUndef | VStr EmptyString => VStr MISSING
     | _ => v
     end).

(** [stringIndices.forEach(i => vocabSets[featureNames[i]] = new Set())] *)
Definition vocab_init (names : list string) (sIdx : list nat) : list (string * list string) :=
  fold_left (fun o i => aset o (feature_name names i) []) sIdx [].

(** The body of the vocabulary pass for one row (train.js, lines 113-119). *)
Definition vocab_row (names : list string) (sIdx : list nat) (x : row)
    (o : list (string * list string)) : list (string * list string) :=
  fold_left (fun o i =>
               let key := feature_name names i in
               let v := token (get x key) in
               aset o key (set_add (vocab_of o key) v))
            sIdx o.

Definition vocab_pass (names : list string) (sIdx : list nat) (rows : list example)
    : list (string * list string) :=
  fold_left (fun o e => vocab_row names sIdx (xs e) o) rows (vocab_init names sIdx).

(** train.js, lines 139-149: add the sentinel if absent, sort, index. *)
Definition finalize_vocab (names : list string) (sIdx : list nat)
    (sets : list (string * list string))
    : list (string * list string) * list (string * tokmap) :=
  fold_left (fun '(vbf, ibf) i =>
               let key := feature_name names i in
               let s := vocab_of sets key in
               let s' := if set_has s MISSING then s else set_add s MISSING in
               let vocab := js_sort s' in
               (aset vbf key vocab, aset ibf key (build_map vocab)))
            sIdx ([], []).

(** Everything [run()] computes before the encoding pass: the artifact and
    the [indexByFeature] maps of training. *)
Definition train_preprocess (rows : list example) : artifact * list (string * tokmap) :=
  let names := schema_featureNames rows in
  let nIdx := schema_numericIndices rows in
  let sIdx := schema_stringIndices rows in
  let st := stats_pass names nIdx rows in
  let '(vbf, ibf) := finalize_vocab names sIdx (vocab_pass names sIdx rows) in
  let '(offs, td) := layout names vbf sIdx (List.length nIdx) in
  ({| featureNames := names;
      numericIndices := nIdx;
      stringIndices := sIdx;
      numericMeans := numericMeans_of st;
      numericStds := numericStds_of st;
      vocabByFeature := vbf;
      oneHotOffsets := offs;
      totalDim := td |}, ibf).

(** [numericMeans[pos]]; past the end it is [undefined], NaN in arithmetic. *)
Definition at_pos (l : list float) (pos : nat) : float := nth pos l S754_nan.

(** *** The encoder of training (train.js, lines 189-227) *)

(** The value [vec[pos]] receives for the numeric column [colIdx]: mean
    imputation and standardisation. *)
Definition train_numeric_value (a : artifact) (x : row) (colIdx pos : nat) : float :=
  let v := get x (feature_name (featureNames a) colIdx) in
  let m := at_pos (numericMeans a) pos in
  let imputed := match finite_number v with Some f => f | None => m end in
  let s := at_pos (numericStds a) pos in
  let std := if fgt s fzero then s else fone in
  fdiv (fsub imputed m) std.

(** [numericIndices.forEach((colIdx, pos) => ...)] *)
Definition train_numeric (a : artifact) (x : row) (vec : list cell) : list cell :=
  fold_left (fun vec '(colIdx, pos) => js_set vec pos (Num (train_numeric_value a x colIdx pos)))
            (combine (numericIndices a) (seq 0 (List.length (numericIndices a)))) vec.

(** [map[v] !== undefined ? map[v] : map['__MISSING__']] *)
Definition lookup_index (map : tokmap) (v : string) : prop_read :=
  match obj_get map v with
  | PUndefined => obj_get map MISSING
  | r => r
  end.

(** [stringIndices.forEach(...)]: one-hot. Destructuring [oneHotOffsets[name]]
    or indexing [indexByFeature[name]] when it is undefined throws: [None]. *)
Fixpoint train_onehot (a : artifact) (ibf : list (string * tokmap)) (x : row)
    (sIdx : list nat) (vec : list cell) : option (list cell) :=
  match sIdx with
  | [] => Some vec
  | i :: rest =>
      let name := feature_name (featureNames a) i in
      match aget (oneHotOffsets a) name, aget ibf name with
      | Some (offset, size), Some map =>
          let v := token (get x name) in
          let idx := lookup_index map v in
          let vec' := match idx with
                      | PIndex n => if Nat.ltb n size then js_set vec (offset + n) (Num fone) else vec
                      | _ => vec
                      end in
          train_onehot a ibf x rest vec'
      | _, _ => None
      end
  end.

Definition train_encode (a : artifact) (ibf : list (string * tokmap)) (x : row)
    : option (list cell) :=
  train_onehot a ibf x (stringIndices a) (train_numeric a x (zeros (totalDim a))).

(** *** The encoder of inference: [encodeRow] (prediction.js, lines 43-67) *)

(** prediction.js, lines 22-27: [indexByFeature] rebuilt from the artifact. *)
Definition infer_index (a : artifact) : list (string * tokmap) :=
  fold_left (fun o '(feat, vocab) => aset o feat (build_map vocab)) (vocabByFeature a) [].

(** The value [vec[pos]] receives at inference: imputation only. *)
Definition infer_numeric_value (a : artifact) (x : row) (colIdx pos : nat) : float :=
  let v := get x (feature_name (featureNames a) colIdx) in
  match finite_number v with
  | Some f => f
  | None => at_pos (numericMeans a) pos
  end.

Definition infer_numeric (a : artifact) (x : row) (vec : list cell) : list cell :=
  fold_left (fun vec '(colIdx, pos) => js_set vec pos (Num (infer_numeric_value a x colIdx pos)))
            (combine (numericIndices a) (seq 0 (List.length (numericIndices a)))) vec.

Fixpoint infer_onehot (a : artifact) (ibf : list (string * tokmap)) (x : row)
    (sIdx : list nat) (vec : list cell) : list cell :=
  match sIdx with
  | [] => vec
  | i :: rest =>
      let name := feature_name (featureNames a) i in
      match aget (oneHotOffsets a) name with
      | None => infer_onehot a ibf x rest vec   (* [return] from this feature *)
      | Some (offset, size) =>
          let v := token (get x name) in
          (* [map ? ... : -1]: with no map the index is -1, never written *)
          let idx := match aget ibf name with
                     | Some map => lookup_index map v
                     | None => PUndefined
                     end in
          let vec' := match idx with
                      | PIndex n => if Nat.ltb n size then js_set vec (offset + n) (Num fone) else vec
                      | _ => vec
                      end in
          infer_onehot a ibf x rest vec'
      end
  end.

Definition encodeRow (a : artifact) (x : row) : list cell :=
  infer_onehot a (infer_index a) x (stringIndices a) (infer_numeric a x (zeros (totalDim a))).

(** The cell [offset + idx] the one-hot loop of training sets for the
    feature [i], if it sets one. *)
Definition train_target (a : artifact) (ibf : list (string * tokmap)) (x : row) (i : nat)
    : option nat :=
  let name := feature_name (featureNames a) i in
  match aget (oneHotOffsets a) name, aget ibf name with
  | Some (offset, size), Some map =>
      match lookup_index map (token (get x name)) with
      | PIndex n => if Nat.ltb n size then Some (offset + n) else None
      | _ => None
      end
  | _, _ => None
  end.

(** The same for [encodeRow]. *)
Definition infer_target (a : artifact) (ibf : list (string * tokmap)) (x : row) (i : nat)
    : option nat :=
  let name := feature_name (featureNames a) i in
  match aget (oneHotOffsets a) name with
  | Some (offset, size) =>
      match match aget ibf name with
            | Some map => lookup_index map (token (get x name))
            | None => PUndefined
            end with
      | PIndex n => if Nat.ltb n size then Some (offset + n) else None
      | _ => None
      end
  | None => None
  end.

(** *** The earlier training script (src/unnamed/part_000) *)

(** Everything its [run()] computes before the encoding pass: the schema,
    vocabularies, maps and layout of train.js, and the means of its own
    statistics pass. It saves no [numericStds]; the field is left empty. *)
Definition old_train_preprocess (rows : list example) : artifact * list (string * tokmap) :=
  let names := schema_featureNames rows in
  let nIdx := schema_numericIndices rows in
  let sIdx := schema_stringIndices rows in
  let st := old_stats_pass names nIdx rows in
  let '(vbf, ibf) := finalize_vocab names sIdx (vocab_pass names sIdx rows) in
  let '(offs, td) := layout names vbf sIdx (List.length nIdx) in
  ({| featureNames := names;
      numericIndices := nIdx;
      stringIndices := sIdx;
      numericMeans := old_numericMeans st;
      numericStds := [];
      vocabByFeature := vbf;
      oneHotOffsets := offs;
      totalDim := td |}, ibf).

(** Its row map (lines 141-176): mean imputation without standardisation,
    [vec[pos] = (typeof v === 'number' && Number.isFinite(v)) ? v : numericMeans[pos]],
    the numeric loop of [encodeRow] word for word, then the one-hot loop
    of train.js. *)
Definition old_encode (a : artifact) (ibf : list (string * tokmap)) (x : row)
    : option (list cell) :=
  train_onehot a ibf x (stringIndices a) (infer_numeric a x (zeros (totalDim a))).

(** *** The submission file (prediction.js, lines 72-77 and 109-118) *)

(** [passengerIds.push(xs.PassengerId ?? '')] *)
Definition passenger_id (x : row) : value :=
  match get x "PassengerId" with
  | VNull | VUndef => VStr EmptyString
  | v => v
  end.

(** [outLines]: the header, then for each [i < predictions.length] the
    line [`${pid},${predictions[i] ? 'True' : 'False'}`], where
    [pid = passengerIds[i] ?? '']. *)
Definition submission_lines (passengerIds : list value) (predictions : list bool)
    : list string :=
  "PassengerId,Transported" ::
  map (fun i =>
         let pid := match nth_error passengerIds i with
                    | Some VNull | Some VUndef | None => VStr EmptyString
                    | Some v => v
                    end in
         String.append (js_String pid)
           (String.append "," (if nth i predictions false then "True" else "False")))
      (seq 0 (List.length predictions)).

(** *** The string features of src/unnamed/part_001 *)

(** [strArray] (lines 59-63): [typeof v === 'string' ? v :
    (v === null || v === undefined ? '___MISSING___' : String(v))] *)
Definition str_cell (v : value) : string :=
  match v with
  | VStr s => s
  | VNull | VUndef => "___MISSING___"
  | _ => js_String v
  end.

End Pipeline.

(** ** Label encoders *)

(** [v === true || v === 'True' || v === 'true' || v === 1] *)
Definition truthy_label (v : value) : bool :=
  match v with
  | VBool true => true
  | VStr s => String.eqb s "True" || String.eqb s "true"
  | VNum x => feq x fone
  | _ => false
  end.

(** [v === false || v === 'False' || v === 'false' || v === 0] *)
Definition falsy_label (v : value) : bool :=
  match v with
  | VBool false => true
  | VStr s => String.eqb s "False" || String.eqb s "false"
  | VNum x => feq x fzero
  | _ => false
  end.

(** [encodeLabel] of train.js (lines 179-182): [ys.Transported] to 1 or 0. *)
Definition encodeLabel (y : row) : float :=
  if truthy_label (get y "Transported") then fone else fzero.

(** [encodeLabel] of src/unnamed/part_001 (lines 40-45): 1, 0 or NaN. *)
Definition encodeLabel_strict (y : row) : float :=
  let v := get y "Transported" in
  if truthy_label v then fone
  else if falsy_label v then fzero
  else S754_nan.

(** ** Inference: shape check, tensor and prediction input
    (prediction.js, lines 30-34, 69-103) *)

Inductive log_line :=
| WarnDimMismatch (totalDim modelInputDim : nat)  (* [console.warn] *)
| CollectedRows (n : nat)
| NoTestRows                                      (* [console.error], then [return] *)
| WrotePredictions.

Inductive run_outcome :=
| Finished (input : option (list (list cell)))  (* the tensor given to [model.predict] *)
| Threw.                                         (* an exception: exit code 1 *)

Record run_result := { logs : list log_line; outcome : run_outcome }.

(** [featTensor.slice([0, 0], [-1, m])] on one row. *)
Definition slice_row (m : nat) (r : list cell) : list cell := firstn m r.

(** [tf.concat([featTensor, tf.zeros([n, padCols])], 1)] on one row. *)
Definition pad_row (padCols : nat) (r : list cell) : list cell := r ++ zeros padCols.

(** The part of [main] after the model is loaded, on the encoded rows:
    [tf.tensor2d(featureRows, [n, totalDim])] throws unless every row has
    [totalDim] entries. *)
Definition inference_tail (totalDim modelInputDim : nat) (featureRows : list (list cell))
    : run_result :=
  let warn := if Nat.eqb modelInputDim totalDim then []
              else [WarnDimMismatch totalDim modelInputDim] in
  let logs1 := warn ++ [CollectedRows (List.length featureRows)] in
  match featureRows with
  | [] => {| logs := logs1 ++ [NoTestRows]; outcome := Finished None |}
  | _ =>
      if forallb (fun r => Nat.eqb (List.length r) totalDim) featureRows then
        let t := featureRows in
        let t' := if Nat.eqb modelInputDim totalDim then t
                  else if Nat.ltb modelInputDim totalDim then map (slice_row modelInputDim) t
                  else map (pad_row (modelInputDim - totalDim)) t in
        {| logs := logs1 ++ [WrotePredictions]; outcome := Finished (Some t') |}
      else {| logs := logs1; outcome := Threw |}
  end.

(** ** Persisting the artifact: [JSON.stringify] then [JSON.parse] *)

#[local] Set Warnings "-register-all".

Inductive json :=
| JNull
| JNum (x : float)
| JStr (s : string)
| JArr (l : list json)
| JObj (l : list (string * json)).

(** The artifact as a JavaScript value. *)
Definition json_nats (l : list nat) : json := JArr (map (fun n => JNum (float_of_nat n)) l).
Definition json_floats (l : list float) : json := JArr (map JNum l).
Definition json_strs (l : list string) : json := JArr (map JStr l).

Definition artifact_json (a : artifact) : json :=
  JObj [ ("featureNames", json_strs (featureNames a));
         ("numericIndices", json_nats (numericIndices a));
         ("stringIndices", json_nats (stringIndices a));
         ("numericMeans", json_floats (numericMeans a));
         ("numericStds", json_floats (numericStds a));
         ("vocabByFeature", JObj (map (fun '(k, v) => (k, json_strs v)) (vocabByFeature a)));
         ("oneHotOffsets",
           JObj (map (fun '(k, (o, s)) =>
                        (k, JObj [("offset", JNum (float_of_nat o)); ("size", JNum (float_of_nat s))]))
                     (oneHotOffsets a)));
         ("totalDim", JNum (float_of_nat (totalDim a))) ].

(** A number through [JSON.stringify] and [JSON.parse]: a finite number is
    written with the digits that read back to it, except that -0 is written
    ["0"]; NaN and the infinities are written ["null"]. *)
Definition json_number (x : float) : json :=
  match x with
  | S754_finite _ _ _ => JNum x
  | S754_zero _ => JNum fzero
  | _ => JNull
  end.

(** [JSON.parse(JSON.stringify(v))]: strings and keys come back unchanged. *)
Fixpoint json_roundtrip (j : json) : json :=
  match j with
  | JNull => JNull
  | JNum x => json_number x
  | JStr s => JStr s
  | JArr l => JArr (map json_roundtrip l)
  | JObj l => JObj (map (fun '(k, v) => (k, json_roundtrip v)) l)
  end.

(** ** Vocabulary of the statements *)

(** Numbers that [JSON.stringify] writes with digits that read back to
    themselves: finite numbers and +0. *)
Definition json_exact (x : float) : bool :=
  match x with
  | S754_finite _ _ _ | S754_zero false => true
  | _ => false
  end.

(** Counts, indices and offsets below 2^53, the safe integers. *)
Definition safe_nat (n : nat) : bool := Z.ltb (Z.of_nat n) (2 ^ 53).

(** The numbers of the artifact survive the JSON round trip. *)
Definition artifact_numbers_ok (a : artifact) : bool :=
  forallb json_exact (numericMeans a) && forallb json_exact (numericStds a) &&
  forallb safe_nat (numericIndices a) && forallb safe_nat (stringIndices a) &&
  forallb (fun '(_, (o, s)) => safe_nat o && safe_nat s) (oneHotOffsets a) &&
  safe_nat (totalDim a).

(** Blocks laid end to end from [start], one per (name, size). *)
Fixpoint contiguous_blocks (start : nat) (sizes : list (string * nat)) : offsets :=
  match sizes with
  | [] => []
  | (n, s) :: rest => (n, (start, s)) :: contiguous_blocks (start + s) rest
  end.

(** The (name, vocabulary length) of each categorical feature, in order. *)
Definition block_sizes (names : list string) (vbf : list (string * list string))
    (sIdx : list nat) : list (string * nat) :=
  map (fun i => (feature_name names i, List.length (vocab_of vbf (feature_name names i)))) sIdx.

(** The finite numbers of column [colIdx], row by row. *)
Definition finite_values (names : list string) (colIdx : nat) (rows : list example)
    : list float :=
  flat_map (fun e => match finite_number (get (xs e) (feature_name names colIdx)) with
                     | Some f => [f]
                     | None => []
                     end) rows.

(** Whether one of the features [sIdx] has its one-hot cell at [p]. *)
Definition targets_hit (target : nat -> option nat) (sIdx : list nat) (p : nat) : bool :=
  existsb (fun i => match target i with Some q => Nat.eqb q p | None => false end) sIdx.

(** In the block [(o, s)] of every categorical feature, the cell of the
    record's token (of the sentinel if the token is not in the vocabulary)
    is 1 and every other cell is 0. *)
Definition one_hot_ok (tok : value -> string) (a : artifact) (x : row) (vec : list cell) : Prop :=
  forall i o s, In i (stringIndices a) ->
  aget (oneHotOffsets a) (feature_name (featureNames a) i) = Some (o, s) ->
  let name := feature_name (featureNames a) i in
  let vocab := vocab_of (vocabByFeature a) name in
  let t := tok (get x name) in
  exists k, k < s /\
    nth_error vocab k = Some (if set_has vocab t then t else MISSING) /\
    nth_error vec (o + k) = Some (Num fone) /\
    (forall j, j < s -> j <> k -> nth_error vec (o + j) = Some (Num fzero)).

(** Every cell of [vec] from [lo] on is 0 or 1. *)
Definition cells_01_from (lo : nat) (vec : list cell) : Prop :=
  forall p, lo <= p -> p < List.length vec ->
  nth_error vec p = Some (Num fzero) \/ nth_error vec p = Some (Num fone).

(** A finite number whose exponent is at least the least one of binary64:
    every result of rounding is such, and so is every value a program reads. *)
Definition exp_ok (x : float) : Prop :=
  match x with
  | S754_finite _ _ e => (emin prec emax <= e)%Z
  | _ => True
  end.

(** The label forms read as 1, and those the strict encoder reads as 0. *)
Definition true_form (v : value) : Prop :=
  v = VBool true \/ v = VStr "True" \/ v = VStr "true" \/ v = VNum fone.

Definition false_form (v : value) : Prop :=
  v = VBool false \/ v = VStr "False" \/ v = VStr "false" \/
  v = VNum (S754_zero false) \/ v = VNum (S754_zero true).

(** ** The string features of src/unnamed/part_001, continued *)

(** [val === null || val === undefined || val === '' ? '___MISSING___' : String(val)]
    on the strings a string tensor gives back (lines 118 and 130). *)
Definition old_token (val : string) : string :=
  if String.eqb val EmptyString then "___MISSING___" else val.

(** [stringVocabSets[c].add(token)] for the tokens of a column, in the
    order they are added, then [Array.from] (lines 115-122). *)
Definition old_vocab (tokens : list string) : list string :=
  fold_left set_add tokens [].

(** A [Map]: its entries in insertion order, [set] on a present key keeps
    its place; unlike a plain object it has no inherited entries.
    [const m = new Map(); vocab.forEach((tok, i) => m.set(tok, i))] *)
Definition build_js_map (vocab : list string) : list (string * nat) :=
  fold_left (fun m '(tok, i) => aset m tok i)
            (combine vocab (seq 0 (List.length vocab))) [].

(** One cell of [encodeStringBatch] (lines 129-132):
    [idx === undefined ? 0 : idx]. *)
Definition old_encode_cell (m : list (string * nat)) (val : string) : nat :=
  match aget m (old_token val) with
  | Some i => i
  | None => 0
  end.

(** ** The tensor helpers of src/src/model.js (lines 30-110)

    A rank-2 tensor is the list of its rows, each [cols] long. Its elements
    are binary32 numbers, kept as [float] values that binary32 represents;
    tensor arithmetic is binary32 arithmetic. *)

Definition prec32 : Z := 24.
Definition emax32 : Z := 128.

Definition f32add : float -> float -> float := SFadd prec32 emax32.
Definition f32sub : float -> float -> float := SFsub prec32 emax32.
Definition f32mul : float -> float -> float := SFmul prec32 emax32.
Definition f32div : float -> float -> float := SFdiv prec32 emax32.
Definition f32sqrt : float -> float := SFsqrt prec32 emax32.

(** A JavaScript number stored into a float32 tensor: rounded to binary32. *)
Definition to_f32 (x : float) : float :=
  match x with
  | S754_finite s m e => binary_normalize prec32 emax32 (cond_Zopp s (Zpos m)) e s
  | _ => x
  end.

Definition f32zero : float := S754_zero false.
Definition f32one : float := to_f32 fone.

(** The scalar [1e-8] of [.add(1e-8)]: the binary64 literal, rounded to binary32. *)
Definition f32_1em8 : float := to_f32 (fdiv fone (float_of_Z (10 ^ 8))).

Record tensor2d := { cols : nat; rows2d : list (list float) }.

(** Column [c] of the rows (every row has [cols] elements). *)
Definition column (rows : list (list float)) (c : nat) : list float :=
  map (fun r => nth c r S754_nan) rows.

(** The per-column statistics [determineMeanAndStddev] returns. *)
Record col_stats := { dataMean : float; dataStd : float; validMask : bool }.

Section Reductions.

(** [sum(0)] and [maximum] of the tfjs backend: the order in which a column
    is summed, and what [maximum] does with NaN, are the backend's. *)
Variable tf_sum : list float -> float.
Variable tf_maximum : float -> float -> float.

(** [determineMeanAndStddev] (lines 37-56) on one column [x]. *)
Definition column_stats (x : list float) : col_stats :=
  let notNaN := map (fun v => negb (is_nan v)) x in
  let counts := tf_sum (map (fun b : bool => if b then f32one else f32zero) notNaN) in
  let hasAny := SFltb f32zero counts in
  let cleaned := map (fun v => if is_nan v then f32zero else v) x in
  let safeCounts := tf_maximum counts f32one in
  let mean := f32div (tf_sum cleaned) safeCounts in
  let sumSq := tf_sum (map (fun v => f32mul v v) cleaned) in
  let variance := tf_maximum (f32sub (f32div sumSq safeCounts) (f32mul mean mean)) f32zero in
  let std := f32add (f32sqrt variance) f32_1em8 in
  {| dataMean := if hasAny then mean else f32zero;
     dataStd := if hasAny then std else f32one;
     validMask := hasAny |}.

Definition determineMeanAndStddev (data : tensor2d) : list col_stats :=
  map (fun c => column_stats (column (rows2d data) c)) (seq 0 (cols data)).

End Reductions.

(** [imputeNaN(data, fillValues)] (lines 89-95): [data.where(isNaN.logicalNot(),
    fillRow)], [fillRow] being [fillValues] tiled over the rows, for
    [fillValues] of one value per column. *)
Definition imputeNaN (data : list (list float)) (fillValues : list float) : list (list float) :=
  map (fun r => map (fun '(c, x) => if is_nan x then nth c fillValues S754_nan else x)
                    (combine (seq 0 (List.length r)) r))
      data.

(** [normalizeTensor(data, dataMean, dataStd, validMask)] (lines 104-110):
    [(x - mean) / std] per column, and where a mask is given
    ([tf.where(mask2D, norm, data)]) the columns it marks false unchanged. *)
Definition normalizeTensor (data : list (list float)) (dataMean dataStd : list float)
    (mask : option (list bool)) : list (list float) :=
  map (fun r => map (fun '(c, x) =>
                       let norm := f32div (f32sub x (nth c dataMean S754_nan))
                                          (nth c dataStd S754_nan) in
                       match mask with
                       | None => norm
                       | Some m => if nth c m false then norm else x
                       end)
                    (combine (seq 0 (List.length r)) r))
      data.

(** [colVals.sort((a, b) => a - b)] on finite numbers: there [a - b] has
    the sign of the comparison, so the comparator is consistent, and the
    sort is stable: the result is the stable sort by value, computed here
    by insertion, each element going after every earlier one not greater. *)
Fixpoint insert_num (x : float) (l : list float) : list float :=
  match l with
  | [] => [x]
  | y :: l' => if fgt (fsub y x) fzero then x :: l else y :: insert_num x l'
  end.

Definition sort_num (l : list float) : list float :=
  fold_left (fun acc x => insert_num x acc) l [].

(** [colVals] of column [c]: [if (Number.isFinite(v)) colVals.push(v)];
    [rows[r][c]] past the end of a row is undefined, which is not finite. *)
Definition finite_column (rows : list (list float)) (c : nat) : list float :=
  flat_map (fun r => match nth_error r c with
                     | Some v => if is_finite v then [v] else []
                     | None => []
                     end) rows.

(** [med[c]]: 0 for no value, else the middle of the sorted values, or the
    mean of the two middle ones ([colVals.length % 2 ? ... : ...]). *)
Definition median_of (colVals : list float) : float :=
  match colVals with
  | [] => fzero
  | _ =>
      let s := sort_num colVals in
      let m := Nat.div (List.length s) 2 in
      if Nat.odd (List.length s) then nth m s fzero
      else fdiv (fadd (nth (m - 1) s fzero) (nth m s fzero)) (float_of_Z 2)
  end.

(** [determineMedian] (lines 64-82) on [rows = await data.array()]:
    [rows[0].length] throws a TypeError when the tensor has no row ([None]);
    [tf.tensor1d(med, 'float32')] rounds the medians to binary32. *)
Definition determineMedian (rows : list (list float)) : option (list float) :=
  match rows with
  | [] => None
  | r0 :: _ =>
      Some (map (fun c => to_f32 (median_of (finite_column rows c))) (seq 0 (List.length r0)))
  end.

(** ** Concrete inputs *)

(** A rendering of numbers for the concrete runs below, in none of which a
    number reaches [String(...)]. *)
Definition no_number_to_string : float -> string := fun _ => EmptyString.

Definition example_of (x : row) : example := {| xs := x; ys := [] |}.

(** A numeric column [Age] with the values 0 and 4: mean 2, std 2. *)
Definition rows_age : list example :=
  [ example_of [("Age", VNum (float_of_Z 0))];
    example_of [("Age", VNum (float_of_Z 4))] ].

(** 2^1023, the largest power of two below the overflow threshold. *)
Definition big : float := S754_finite false 4503599627370496 971.

(** Two values 2^1023: their sum and squares overflow to Infinity. *)
Definition rows_big : list example :=
  [ example_of [("Age", VNum big)]; example_of [("Age", VNum big)] ].

(** A numeric column [Age] with no finite value (the text "NaN" parses as a
    number, so the column is numeric), and a categorical column
    [HomePlanet]. *)
Definition rows_missing : list example :=
  [ example_of [("Age", VNum S754_nan); ("HomePlanet", VStr "Earth")];
    example_of [("Age", VUndef); ("HomePlanet", VStr "Mars")] ].

(** A categorical column whose only value is the string "__proto__". *)
Definition rows_proto : list example :=
  [ example_of [("Name", VStr "__proto__")] ].

(** A numeric column [Age] with the values 0 and 2: variance 1, std 1. *)
Definition rows_unit : list example :=
  [ example_of [("Age", VNum (float_of_Z 0))];
    example_of [("Age", VNum (float_of_Z 2))] ].

(** The record [{Age: 5, HomePlanet: "constructor"}]: a token never seen,
    which is also a property every object inherits. *)
Definition row_constructor : row :=
  [("Age", VNum (float_of_Z 5)); ("HomePlanet", VStr "constructor")].

(** Test records with an identifier and with none. *)
Definition rows_test : list row :=
  [ [("PassengerId", VStr "0013_01")]; [("PassengerId", VUndef)] ].

(** A reduction [sum] that adds left to right in binary32, and the
    [maximum] of two values. *)
Definition f32_sum_seq (l : list float) : float := fold_left f32add l f32zero.
Definition f32_maximum (x y : float) : float := if SFltb x y then y else x.

(** A 2x2 tensor whose first column has no value. *)
Definition tensor_nan_col : tensor2d :=
  {| cols := 2; rows2d := [[S754_nan; fone]; [S754_nan; float_of_Z 2]] |}.

(** * Theorems *)

(** ** Encoders of training and of inference *)

(** C1 (code defect): on the training data [rows_age] (mean 2, std 2), the
    row [{Age: 4}] is encoded as [1] by the training batches and as [4] by
    [encodeRow]: inference imputes but does not standardise. *)
Theorem train_inference_encoders_disagree :
  train_encode no_number_to_string
    (fst (train_preprocess no_number_to_string rows_age))
    (snd (train_preprocess no_number_to_string rows_age))
    [("Age", VNum (float_of_Z 4))] = Some [Num (float_of_Z 1)] /\
  encodeRow no_number_to_string
    (fst (train_preprocess no_number_to_string rows_age))
    [("Age", VNum (float_of_Z 4))] = [Num (float_of_Z 4)].
Proof. split; vm_compute; reflexivity. Qed.

(** ** Label encoders *)

Lemma feq_fone (x : float) : feq x fone = true <-> x = fone.
Proof.
  change fone with (S754_finite false 4503599627370496 (-52)).
  unfold feq, SFeqb, SFcompare. split.
  - intros H. destruct x as [s|s| |s m e]; try discriminate H;
      [destruct s; discriminate H|].
    destruct s; [discriminate H|].
    destruct (Z.compare_spec e (-52)); try discriminate H.
    rewrite Pos.compare_cont_spec in H.
    destruct (Pos.compare m 4503599627370496) eqn:Hm; try discriminate H.
    subst e. apply Pos.compare_eq_iff in Hm. subst m. reflexivity.
  - intros ->. reflexivity.
Qed.

Lemma feq_fzero (x : float) : feq x fzero = true <-> x = S754_zero false \/ x = S754_zero true.
Proof.
  unfold feq, SFeqb, SFcompare, fzero. split.
  - intros H. destruct x as [[|]|[|]| |[|] m e]; try discriminate H; auto.
  - intros [-> | ->]; reflexivity.
Qed.

Lemma true_form_truthy (v : value) : true_form v <-> truthy_label v = true.
Proof.
  unfold true_form. split.
  - intros [-> | [-> | [-> | ->]]]; reflexivity.
  - destruct v as [x|s|[|]| |]; simpl; try discriminate.
    + intros H. apply feq_fone in H. subst. auto.
    + intros H. apply orb_true_iff in H as [H|H]; apply String.eqb_eq in H; subst; auto.
    + auto.
Qed.

Lemma false_form_falsy (v : value) : false_form v <-> falsy_label v = true.
Proof.
  unfold false_form. split.
  - intros [-> | [-> | [-> | [-> | ->]]]]; reflexivity.
  - destruct v as [x|s|[|]| |]; simpl; try discriminate.
    + intros H. apply feq_fzero in H as [-> | ->]; auto 6.
    + intros H. apply orb_true_iff in H as [H|H]; apply String.eqb_eq in H; subst; auto.
    + auto.
Qed.

(** C8 (counterexample): "TRUE" is not read as 1, and the strict encoder
    reads [false] as 0, not as the unknown outcome. *)
Lemma encodeLabel_counterexample :
  encodeLabel [("Transported", VStr "TRUE")] = fzero /\
  encodeLabel_strict [("Transported", VBool false)] = fzero.
Proof. split; reflexivity. Qed.

(** C8 (as amended): both encoders return 1 exactly on [true], the number 1,
    "True" and "true"; on any other value the lenient one returns 0 and the
    strict one returns 0 on [false], 0, "False", "false" and NaN otherwise. *)
Theorem encodeLabel_spec (y : row) :
  let v := get y "Transported" in
  (true_form v -> encodeLabel y = fone /\ encodeLabel_strict y = fone) /\
  (~ true_form v -> encodeLabel y = fzero /\
     (false_form v -> encodeLabel_strict y = fzero) /\
     (~ false_form v -> encodeLabel_strict y = S754_nan)).
Proof.
  cbv zeta. unfold encodeLabel, encodeLabel_strict.
  rewrite true_form_truthy, false_form_falsy.
  destruct (truthy_label (get y "Transported")); [split; auto; intros H; now elim H|].
  split; [intros H; discriminate|]. intros _.
  destruct (falsy_label (get y "Transported")); split; auto; split; auto.
  - intros H; now elim H.
  - intros H; discriminate.
Qed.

(** ** Inference shape check *)

Lemma Forall_map_length (f : list cell -> list cell) (n m : nat) (rows : list (list cell)) :
  Forall (fun r => List.length r = n) rows ->
  (forall r, List.length r = n -> List.length (f r) = m) ->
  Forall (fun r => List.length r = m) (map f rows).
Proof.
  intros Hrows Hf. induction Hrows; constructor; auto.
Qed.

(** C9: with rows of [totalDim] entries (what [encodeRow] builds), a width
    mismatch is always logged and never makes the run throw: the matrix is
    cut to the model width when [totalDim] is larger and padded with zeros
    on the right when it is smaller; with equal widths nothing is logged or
    changed; every row handed to the model has the model's width. *)
Theorem inference_tail_dim_mismatch (totalDim modelInputDim : nat)
    (featureRows : list (list cell))
    (Hrows : Forall (fun r => List.length r = totalDim) featureRows) :
  let res := inference_tail totalDim modelInputDim featureRows in
  (modelInputDim <> totalDim ->
     In (WarnDimMismatch totalDim modelInputDim) (logs res) /\
     outcome res =
       Finished (match featureRows with
                 | [] => None
                 | _ => Some (if Nat.ltb modelInputDim totalDim
                              then map (slice_row modelInputDim) featureRows
                              else map (pad_row (modelInputDim - totalDim)) featureRows)
                 end)) /\
  (modelInputDim = totalDim ->
     (forall t m, ~ In (WarnDimMismatch t m) (logs res)) /\
     outcome res = Finished (match featureRows with [] => None | _ => Some featureRows end)) /\
  (forall t, outcome res = Finished (Some t) ->
     Forall (fun r => List.length r = modelInputDim) t).
Proof.
  cbv zeta. unfold inference_tail.
  assert (Hall : forallb (fun r => Nat.eqb (List.length r) totalDim) featureRows = true).
  { apply forallb_forall. intros r Hr. apply Nat.eqb_eq.
    rewrite Forall_forall in Hrows. auto. }
  destruct featureRows as [|r0 rest].
  - destruct (Nat.eqb_spec modelInputDim totalDim) as [Heq|Hne]; simpl;
      repeat split; intros; try congruence; intuition discriminate.
  - rewrite Hall.
    destruct (Nat.eqb_spec modelInputDim totalDim) as [Heq|Hne]; simpl;
      repeat split; intros; try congruence; try (left; reflexivity);
      try (intuition discriminate);
      match goal with Ht : Finished _ = Finished _ |- _ => injection Ht as <- end.
    + subst. exact Hrows.
    + destruct (Nat.ltb_spec modelInputDim totalDim).
      * refine (Forall_map_length _ totalDim _ (r0 :: rest) Hrows _).
        intros r Hr. unfold slice_row. rewrite length_firstn. lia.
      * refine (Forall_map_length _ totalDim _ (r0 :: rest) Hrows _).
        intros r Hr. unfold pad_row, zeros. rewrite length_app, repeat_length. lia.
Qed.

Lemma inference_tail_dim_mismatch_witness :
  Forall (fun r => List.length r = 3) [zeros 3; zeros 3] /\
  In (WarnDimMismatch 3 2) (logs (inference_tail 3 2 [zeros 3; zeros 3])) /\
  outcome (inference_tail 3 2 [zeros 3; zeros 3]) = Finished (Some [zeros 2; zeros 2]).
Proof.
  assert (H : Forall (fun r => List.length r = 3) [zeros 3; zeros 3]) by (repeat constructor).
  split; [exact H|].
  exact (proj1 (inference_tail_dim_mismatch 3 2 [zeros 3; zeros 3] H) ltac:(discriminate)).
Defined.

(** ** One-hot layout *)

Lemma aget_app_none {A} (o : list (string * A)) (k k' : string) (v : A) :
  aget o k' = None -> k' <> k -> aget (o ++ [(k, v)]) k' = None.
Proof.
  induction o as [|[k0 v0] o IH]; simpl; intros Ho Hne.
  - destruct (String.eqb_spec k' k); congruence.
  - destruct (String.eqb k' k0); [discriminate|auto].
Qed.

Lemma aset_fresh {A} (o : list (string * A)) (k : string) (v : A) :
  aget o k = None -> aset o k v = o ++ [(k, v)].
Proof.
  induction o as [|[k0 v0] o IH]; simpl; intros Ho; auto.
  destruct (String.eqb k k0); [discriminate|]. now rewrite IH.
Qed.

Lemma layout_fold (names : list string) (vbf : list (string * list string))
    (sIdx : list nat) : forall (offs : offsets) (td : nat),
  NoDup (map (feature_name names) sIdx) ->
  (forall i, In i sIdx -> aget offs (feature_name names i) = None) ->
  fold_left (fun '(offs, td) i =>
               let name := feature_name names i in
               let size := List.length (vocab_of vbf name) in
               (aset offs name (td, size), td + size))
            sIdx (offs, td) =
  (offs ++ contiguous_blocks td (block_sizes names vbf sIdx),
   td + list_sum (map snd (block_sizes names vbf sIdx))).
Proof.
  induction sIdx as [|i sIdx IH]; intros offs td Hnd Hfresh; simpl.
  - rewrite app_nil_r. f_equal; lia.
  - inversion Hnd as [|? ? Hni Hnd']; subst.
    rewrite aset_fresh by (apply Hfresh; left; reflexivity).
    rewrite IH; auto.
    + rewrite <- app_assoc. simpl. f_equal. lia.
    + intros j Hj. apply aget_app_none.
      * apply Hfresh. right. exact Hj.
      * intros Heq. apply Hni. rewrite <- Heq. apply in_map. exact Hj.
Qed.

Lemma blocks_bounds (l : list (string * nat)) : forall start k n o s,
  nth_error (contiguous_blocks start l) k = Some (n, (o, s)) ->
  start <= o /\ o + s <= start + list_sum (map snd l).
Proof.
  induction l as [|[n0 s0] l IH]; intros start k n o s H; simpl in *.
  - destruct k; discriminate.
  - destruct k as [|k]; simpl in H.
    + injection H as <- <- <-. lia.
    + apply IH in H. lia.
Qed.

Lemma blocks_disjoint (l : list (string * nat)) : forall start j k nj oj sj nk ok sk,
  j < k ->
  nth_error (contiguous_blocks start l) j = Some (nj, (oj, sj)) ->
  nth_error (contiguous_blocks start l) k = Some (nk, (ok, sk)) ->
  oj + sj <= ok.
Proof.
  induction l as [|[n0 s0] l IH]; intros start j k nj oj sj nk ok sk Hjk Hj Hk; simpl in *.
  - destruct j; discriminate.
  - destruct k as [|k]; [lia|]. simpl in Hk.
    destruct j as [|j]; simpl in Hj.
    + injection Hj as <- <- <-. apply blocks_bounds in Hk. lia.
    + eapply IH; [|exact Hj|exact Hk]. lia.
Qed.

Lemma NoDup_map_on {A B} (f : A -> B) (l : list A) :
  NoDup l -> (forall x y, In x l -> In y l -> f x = f y -> x = y) -> NoDup (map f l).
Proof.
  induction 1 as [|x l Hx Hnd IH]; intros Hinj; simpl; constructor.
  - intros Hin. apply in_map_iff in Hin as (y & Hfy & Hy).
    assert (y = x) by (apply Hinj; simpl; auto). subst. contradiction.
  - apply IH. intros a b Ha Hb. apply Hinj; simpl; auto.
Qed.

Lemma NoDup_schema_names (names : list string) (p : nat -> bool) :
  NoDup names ->
  NoDup (map (feature_name names) (filter p (seq 0 (List.length names)))).
Proof.
  intros Hnd. apply NoDup_map_on.
  - apply NoDup_filter, seq_NoDup.
  - intros x y Hx Hy Hxy.
    apply filter_In in Hx as [Hx _]. apply filter_In in Hy as [Hy _].
    apply in_seq in Hx. apply in_seq in Hy.
    unfold feature_name in Hxy.
    eapply NoDup_nth; eauto; lia.
Qed.

Lemma StronglySorted_seq (n : nat) : forall start, StronglySorted lt (seq start n).
Proof.
  induction n as [|n IH]; intros start; simpl; constructor; auto.
  apply Forall_forall. intros x Hx. apply in_seq in Hx. lia.
Qed.

Lemma StronglySorted_filter {A} (R : A -> A -> Prop) (p : A -> bool) (l : list A) :
  StronglySorted R l -> StronglySorted R (filter p l).
Proof.
  induction 1 as [|x l Hs IH Hf]; simpl; [constructor|].
  destruct (p x); auto. constructor; auto.
  rewrite Forall_forall in *. intros y Hy. apply filter_In in Hy as [Hy _]. auto.
Qed.

(** C6: numeric features come first, in schema order; each categorical
    feature, in schema order, gets the block [(offset, size)] whose size is
    its vocabulary length, the first at [numericIndices.length] and each
    next one right after the previous; [totalDim] is [numericCount] plus the
    sizes; blocks do not overlap and lie in [[numericCount, totalDim)].
    Column names are distinct, as [tf.data.csv] requires of a header. *)
Theorem layout_contiguous (nts : float -> string) (rows : list example)
    (Hnd : NoDup (schema_featureNames rows)) :
  let a := fst (train_preprocess nts rows) in
  let sizes := block_sizes (featureNames a) (vocabByFeature a) (stringIndices a) in
  StronglySorted lt (numericIndices a) /\
  StronglySorted lt (stringIndices a) /\
  oneHotOffsets a = contiguous_blocks (List.length (numericIndices a)) sizes /\
  totalDim a = List.length (numericIndices a) + list_sum (map snd sizes) /\
  (forall j k nj oj sj nk ok sk, j < k ->
     nth_error (oneHotOffsets a) j = Some (nj, (oj, sj)) ->
     nth_error (oneHotOffsets a) k = Some (nk, (ok, sk)) ->
     oj + sj <= ok) /\
  (forall k n o s, nth_error (oneHotOffsets a) k = Some (n, (o, s)) ->
     List.length (numericIndices a) <= o /\ o + s <= totalDim a).
Proof.
  unfold train_preprocess.
  destruct (finalize_vocab (schema_featureNames rows) (schema_stringIndices rows)
              (vocab_pass nts (schema_featureNames rows) (schema_stringIndices rows) rows))
    as [vbf ibf].
  unfold layout. rewrite layout_fold.
  - simpl. split; [apply StronglySorted_filter, StronglySorted_seq|].
    split; [apply StronglySorted_filter, StronglySorted_seq|].
    split; [reflexivity|]. split; [reflexivity|]. split.
    + intros. eapply blocks_disjoint; eauto.
    + intros k n o s Hk. eapply blocks_bounds; eauto.
  - apply NoDup_schema_names. exact Hnd.
  - intros i _. reflexivity.
Qed.

Lemma layout_contiguous_witness :
  NoDup (schema_featureNames rows_missing) /\
  oneHotOffsets (fst (train_preprocess no_number_to_string rows_missing)) =
    contiguous_blocks 1 [("HomePlanet", 3)].
Proof.
  assert (H : NoDup (schema_featureNames rows_missing)).
  { vm_compute. constructor; [intros [H|H]; [discriminate|exact H]|].
    constructor; [intros []|constructor]. }
  split; [exact H|].
  rewrite (proj1 (proj2 (proj2 (layout_contiguous no_number_to_string rows_missing H)))).
  reflexivity.
Defined.

(** ** Binary64 facts: rounding never produces a zero from a nonzero
    mantissa with a representable exponent *)

Local Open Scope Z_scope.

Lemma digits2_pos_size (p : positive) : digits2_pos p = Pos.size p.
Proof. induction p; simpl; congruence. Qed.

Lemma Zdigits2_log2 (m : Z) : 0 < m -> Zdigits2 m = Z.log2 m + 1.
Proof.
  intros Hm. destruct m as [|p|p]; try lia. simpl.
  rewrite digits2_pos_size. destruct p; simpl; lia.
Qed.

Lemma shr_1_div2 (mrs : shr_record) :
  0 <= shr_m mrs -> shr_m (shr_1 mrs) = Z.div2 (shr_m mrs).
Proof.
  destruct mrs as [m r s]. simpl. intros Hm.
  destruct m as [|[p|p|]|p]; simpl; try reflexivity; lia.
Qed.

Lemma iter_shr_1 (p : positive) : forall mrs,
  0 <= shr_m mrs -> shr_m (iter_pos shr_1 p mrs) = Z.shiftr (shr_m mrs) (Zpos p).
Proof.
  induction p as [p IH|p IH|]; intros mrs Hm; simpl.
  - assert (H1 : 0 <= shr_m (shr_1 mrs)) by (rewrite shr_1_div2; [apply Z.div2_nonneg|]; lia).
    assert (H2 : 0 <= shr_m (iter_pos shr_1 p (shr_1 mrs)))
      by (rewrite IH; [apply Z.shiftr_nonneg|]; lia).
    rewrite IH, IH, shr_1_div2, Z.div2_spec, !Z.shiftr_shiftr by lia.
    f_equal. lia.
  - assert (H2 : 0 <= shr_m (iter_pos shr_1 p mrs))
      by (rewrite IH; [apply Z.shiftr_nonneg|]; lia).
    rewrite IH, IH, Z.shiftr_shiftr by lia. f_equal. lia.
  - rewrite shr_1_div2 by lia. apply Z.div2_spec.
Qed.

Lemma fexp_ge (k : Z) : emin prec emax <= fexp prec emax k.
Proof. unfold fexp. lia. Qed.

(** The exponent after [shr_fexp] is never below [emin]. *)
Lemma shr_fexp_exp (m e : Z) (l : location) :
  emin prec emax <= snd (shr_fexp prec emax m e l).
Proof.
  unfold shr_fexp, shr.
  pose proof (fexp_ge (Zdigits2 m + e)).
  destruct (fexp prec emax (Zdigits2 m + e) - e) eqn:Hn; simpl; lia.
Qed.

(** A positive mantissa with a representable exponent stays positive. *)
Lemma shr_fexp_pos (m e : Z) (l : location) :
  1 <= m -> emin prec emax <= e -> 1 <= shr_m (fst (shr_fexp prec emax m e l)).
Proof.
  intros Hm He. unfold shr_fexp, shr.
  assert (Hrec : shr_m (shr_record_of_loc m l) = m) by (destruct l as [|[| |]]; reflexivity).
  rewrite Zdigits2_log2 by lia.
  destruct (fexp prec emax (Z.log2 m + 1 + e) - e) as [|p|p] eqn:Hn; simpl; try lia.
  rewrite iter_shr_1 by lia. rewrite Hrec, Z.shiftr_div_pow2 by lia.
  apply Z.div_le_lower_bound; [apply Z.pow_pos_nonneg; lia|].
  rewrite Z.mul_1_r.
  assert (Hp : Zpos p <= Z.log2 m).
  { unfold fexp in Hn. unfold prec, emax, emin in *. lia. }
  apply Z.le_trans with (2 ^ Z.log2 m).
  - apply Z.pow_le_mono_r; lia.
  - apply Z.log2_spec. lia.
Qed.

Lemma round_nearest_even_ge (m : Z) (l : location) : m <= round_nearest_even m l.
Proof.
  destruct l as [|[| |]]; simpl; try lia.
  destruct (Z.even m); lia.
Qed.

(** Every result of rounding has a representable exponent. *)
Lemma binary_round_aux_ok (s : bool) (m e : Z) (l : location) :
  exp_ok (binary_round_aux prec emax s m e l).
Proof.
  unfold binary_round_aux.
  destruct (shr_fexp prec emax m e l) as [mrs' e'] eqn:H1.
  destruct (shr_fexp prec emax (round_nearest_even (shr_m mrs') (loc_of_shr_record mrs')) e' loc_Exact)
    as [mrs'' e''] eqn:H2.
  pose proof (shr_fexp_exp (round_nearest_even (shr_m mrs') (loc_of_shr_record mrs')) e' loc_Exact) as He.
  rewrite H2 in He. simpl in He.
  destruct (shr_m mrs'') as [|p|p]; simpl; auto;
    destruct (_ <=? _); simpl; auto.
Qed.

(** Rounding a positive mantissa with a representable exponent gives a
    positive finite number or +Infinity. *)
Lemma binary_round_aux_pos (m e : Z) (l : location) :
  1 <= m -> emin prec emax <= e ->
  match binary_round_aux prec emax false m e l with
  | S754_finite false _ _ | S754_infinity false => True
  | _ => False
  end.
Proof.
  intros Hm He. unfold binary_round_aux.
  pose proof (shr_fexp_pos m e l Hm He) as P1.
  pose proof (shr_fexp_exp m e l) as E1.
  destruct (shr_fexp prec emax m e l) as [mrs' e'] eqn:H1. simpl in P1, E1.
  pose proof (round_nearest_even_ge (shr_m mrs') (loc_of_shr_record mrs')) as R.
  pose proof (shr_fexp_pos (round_nearest_even (shr_m mrs') (loc_of_shr_record mrs')) e' loc_Exact
                ltac:(lia) E1) as P2.
  destruct (shr_fexp prec emax (round_nearest_even (shr_m mrs') (loc_of_shr_record mrs')) e' loc_Exact)
    as [mrs'' e''] eqn:H2. simpl in P2.
  destruct (shr_m mrs'') as [|p|p]; try lia.
  destruct (_ <=? _); exact I.
Qed.

Lemma binary_normalize_ok (m e : Z) (sz : bool) :
  exp_ok (binary_normalize prec emax m e sz).
Proof.
  destruct m as [|p|p]; simpl; auto; unfold binary_round;
    destruct (shl_align p e _) as [mz ez]; apply binary_round_aux_ok.
Qed.

Lemma fdiv_ok (x y : float) : exp_ok (fdiv x y).
Proof.
  destruct x as [sx|sx| |sx mx ex], y as [sy|sy| |sy my ey]; simpl; auto.
  unfold fdiv, SFdiv.
  destruct (SFdiv_core_binary prec emax (Zpos mx) ex (Zpos my) ey) as [[mz ez] lz].
  apply binary_round_aux_ok.
Qed.

Lemma fmul_ok (x y : float) : exp_ok (fmul x y).
Proof.
  destruct x as [sx|sx| |sx mx ex], y as [sy|sy| |sy my ey]; simpl; auto.
  apply binary_round_aux_ok.
Qed.

Lemma fsub_ok (x y : float) : exp_ok x -> exp_ok y -> exp_ok (fsub x y).
Proof.
  intros Hx Hy. unfold fsub, SFsub.
  destruct x as [sx|sx| |sx mx ex], y as [sy|sy| |sy my ey];
    try apply binary_normalize_ok; try (destruct sx); try (destruct sy);
    simpl in *; auto.
Qed.

Lemma sqrt_core_bounds (m : positive) (e : Z) :
  emin prec emax <= e ->
  let '(q, e', _) := SFsqrt_core_binary prec emax (Zpos m) e in
  1 <= q /\ emin prec emax <= e'.
Proof.
  intros He. unfold SFsqrt_core_binary.
  set (e' := Z.min (fexp prec emax (Z.div2 (Zdigits2 (Zpos m) + e + 1))) (Z.div2 e)).
  pose proof (Z.div2_odd e) as Hd.
  assert (Hb : 0 <= Z.b2z (Z.odd e) <= 1) by (destruct (Z.odd e); simpl; lia).
  assert (He' : emin prec emax <= e').
  { unfold e'. pose proof (fexp_ge (Z.div2 (Zdigits2 (Zpos m) + e + 1))).
    unfold emin, prec, emax in *. lia. }
  assert (Hs : 0 <= e - 2 * e') by (unfold e'; lia).
  assert (Hm' : 1 <= match e - 2 * e' with
                     | Zpos _ => Z.shiftl (Zpos m) (e - 2 * e')
                     | Z0 => Zpos m
                     | Zneg _ => 0
                     end).
  { destruct (e - 2 * e') as [|p|p] eqn:Hse; try lia.
    rewrite Z.shiftl_mul_pow2 by lia.
    pose proof (Z.pow_pos_nonneg 2 (Zpos p)). nia. }
  revert Hm'.
  destruct (match e - 2 * e' with
            | Zpos _ => Z.shiftl (Zpos m) (e - 2 * e')
            | Z0 => Zpos m
            | Zneg _ => 0
            end) as [|p|p] eqn:Hm''; intros Hm'; try lia.
  assert (H1 : 1 <= Z.sqrt (Zpos p)).
  { change 1 with (Z.sqrt 1). apply Z.sqrt_le_mono. lia. }
  pose proof (Z.sqrtrem_sqrt (Zpos p)) as Hq.
  destruct (Z.sqrtrem (Zpos p)) as [q r]. cbn [fst] in Hq. subst q.
  split; [exact H1|exact He'].
Qed.

(** The square root of a positive finite number is positive. *)
Lemma fsqrt_pos (m : positive) (e : Z) :
  emin prec emax <= e -> fgt (fsqrt (S754_finite false m e)) fzero = true.
Proof.
  intros He. unfold fsqrt, SFsqrt.
  pose proof (sqrt_core_bounds m e He) as Hc.
  destruct (SFsqrt_core_binary prec emax (Zpos m) e) as [[q e'] l].
  destruct Hc as [Hq He'].
  pose proof (binary_round_aux_pos q e' l Hq He') as Hr.
  destruct (binary_round_aux prec emax false q e' l) as [s|[|]| |[|] mr er];
    try contradiction; reflexivity.
Qed.

(** [Math.sqrt(Math.max(v, 1e-12)) > 0] unless [v] is NaN. *)
Lemma std_positive (v : float) :
  exp_ok v -> is_nan v = false -> fgt (fsqrt (js_max v f1em12)) fzero = true.
Proof.
  intros Hv Hn.
  change f1em12 with (S754_finite false 4951760157141521 (-92)).
  destruct v as [s|[|]| |[|] m e]; try discriminate Hn.
  - destruct s; vm_compute; reflexivity.
  - vm_compute. reflexivity.
  - vm_compute. reflexivity.
  - vm_compute. reflexivity.
  - unfold js_max. simpl is_nan. cbv iota beta.
    destruct (SFltb (S754_finite false m e) _); [vm_compute; reflexivity|].
    destruct (SFltb _ (S754_finite false m e)); apply fsqrt_pos; exact Hv.
Qed.

Lemma std_nan (v : float) : is_nan v = true -> fsqrt (js_max v f1em12) = S754_nan.
Proof. destruct v; try discriminate. reflexivity. Qed.

(** *** The statistics pass, column by column *)

Lemma accum_row_length (names : list string) (x : row) (nIdx : list nat) :
  forall st, List.length (accum_row names x nIdx st) = List.length st.
Proof.
  induction nIdx as [|c nIdx IH]; intros [|a st]; simpl; auto.
Qed.

Lemma accum_row_nth (names : list string) (x : row) (nIdx : list nat) :
  forall st pos c a,
  nth_error nIdx pos = Some c -> nth_error st pos = Some a ->
  nth_error (accum_row names x nIdx st) pos = Some (acc_step (get x (feature_name names c)) a).
Proof.
  induction nIdx as [|c' nIdx IH]; intros st pos c a Hc Ha.
  - destruct pos; discriminate.
  - destruct st as [|a' st]; [destruct pos; discriminate|].
    destruct pos as [|pos]; simpl in *.
    + congruence.
    + apply IH; assumption.
Qed.

Lemma stats_fold_nth (names : list string) (nIdx : list nat) (pos c : nat) :
  nth_error nIdx pos = Some c ->
  forall rows st a, nth_error st pos = Some a ->
  nth_error (fold_left (fun st e => accum_row names (xs e) nIdx st) rows st) pos =
  Some (fold_left (fun a e => acc_step (get (xs e) (feature_name names c)) a) rows a).
Proof.
  intros Hc rows. induction rows as [|e rows IH]; intros st a Ha; simpl.
  - exact Ha.
  - apply IH. apply accum_row_nth; assumption.
Qed.

Lemma acc_fold_values (names : list string) (c : nat) (rows : list example) :
  forall a,
  fold_left (fun a e => acc_step (get (xs e) (feature_name names c)) a) rows a =
  {| sum := fold_left fadd (finite_values names c rows) (sum a);
     sumSquare := fold_left (fun s f => fadd s (fmul f f)) (finite_values names c rows) (sumSquare a);
     count := count a + List.length (finite_values names c rows) |}.
Proof.
  induction rows as [|e rows IH]; intros a; simpl.
  - destruct a; simpl. f_equal. lia.
  - unfold finite_values in *. simpl. rewrite IH. unfold acc_step.
    destruct (finite_number (get (xs e) (feature_name names c))) as [f|]; simpl.
    + f_equal. lia.
    + reflexivity.
Qed.

Lemma stats_pass_nth (names : list string) (nIdx : list nat) (rows : list example)
    (pos c : nat) :
  nth_error nIdx pos = Some c ->
  nth_error (stats_pass names nIdx rows) pos =
  Some {| sum := fold_left fadd (finite_values names c rows) fzero;
          sumSquare := fold_left (fun s f => fadd s (fmul f f)) (finite_values names c rows) fzero;
          count := List.length (finite_values names c rows) |}.
Proof.
  intros Hc. unfold stats_pass.
  rewrite (stats_fold_nth names nIdx pos c Hc rows _ acc0).
  - rewrite acc_fold_values. reflexivity.
  - apply nth_error_repeat. apply nth_error_Some. congruence.
Qed.

Lemma train_preprocess_stats (nts : float -> string) (rows : list example) :
  let st := stats_pass (schema_featureNames rows) (schema_numericIndices rows) rows in
  numericMeans (fst (train_preprocess nts rows)) = numericMeans_of st /\
  numericStds (fst (train_preprocess nts rows)) = numericStds_of st.
Proof.
  unfold train_preprocess.
  destruct (finalize_vocab _ _ _) as [vbf ibf].
  destruct (layout _ _ _ _) as [offs td]. split; reflexivity.
Qed.

(** C4 (corrected): column by column, the pass accumulates exactly the finite
    numbers of the column; the mean is [Σx/count], or 0 when [count = 0]; the
    std is 1 when [count = 0], and [sqrt(max(Σx²/count − mean², 1e-12))]
    otherwise, which is positive exactly when that variance is not NaN (it
    is NaN when both [Σx²/count] and [mean²] overflow to Infinity). *)
Theorem statistics_pass_spec (nts : float -> string) (rows : list example) (pos colIdx : nat)
    (Hpos : nth_error (schema_numericIndices rows) pos = Some colIdx) :
  let vals := finite_values (schema_featureNames rows) colIdx rows in
  let a := fst (train_preprocess nts rows) in
  let n := List.length vals in
  let s := fold_left fadd vals fzero in
  let s2 := fold_left (fun acc f => fadd acc (fmul f f)) vals fzero in
  let mean := if Nat.eqb n 0%nat then fzero else fdiv s (float_of_nat n) in
  let var := fsub (fdiv s2 (float_of_nat n)) (fmul mean mean) in
  nth_error (numericMeans a) pos = Some mean /\
  (n = 0%nat -> nth_error (numericStds a) pos = Some fone) /\
  (n <> 0%nat ->
   nth_error (numericStds a) pos = Some (fsqrt (js_max var f1em12)) /\
   (fgt (fsqrt (js_max var f1em12)) fzero = true <-> is_nan var = false)).
Proof.
  intros vals a n s s2 mean var.
  destruct (train_preprocess_stats nts rows) as [Hm Hs].
  pose proof (stats_pass_nth (schema_featureNames rows) (schema_numericIndices rows)
                rows pos colIdx Hpos) as Hst.
  unfold a. rewrite Hm, Hs. unfold numericMeans_of, numericStds_of.
  rewrite !nth_error_map, Hst. cbn [option_map].
  fold vals. fold n. fold s. fold s2.
  unfold mean_of, std_of; cbn [sum sumSquare count].
  assert (Hmean : (if Nat.ltb 0 n then fdiv s (float_of_nat n) else fzero) = mean).
  { unfold mean. destruct n; reflexivity. }
  rewrite Hmean. split; [reflexivity|split].
  - intros Hn. rewrite Hn. reflexivity.
  - intros Hn. apply Nat.eqb_neq in Hn. rewrite Hn. split; [reflexivity|].
    split.
    + intros Hgt. destruct (is_nan var) eqn:Hv; [|reflexivity].
      unfold var_of in Hgt. fold mean in Hgt.
      rewrite std_nan in Hgt by exact Hv. discriminate Hgt.
    + intros Hv. apply std_positive; [|exact Hv].
      apply fsub_ok; [apply fdiv_ok|apply fmul_ok].
Qed.

(** C4, counterexample: with two values 2^1023 the std is NaN, which is not
    positive; with the values 0 and 2 ([count = 2]) the std is exactly 1. *)
Lemma statistics_pass_counterexample :
  numericStds (fst (train_preprocess no_number_to_string rows_big)) = [S754_nan] /\
  fgt S754_nan fzero = false /\
  List.length (finite_values (schema_featureNames rows_unit) 0 rows_unit) = 2%nat /\
  numericStds (fst (train_preprocess no_number_to_string rows_unit)) = [fone].
Proof. repeat split; vm_compute; reflexivity. Qed.

Lemma statistics_pass_spec_witness :
  nth_error (schema_numericIndices rows_big) 0 = Some 0%nat /\
  let vals := finite_values (schema_featureNames rows_big) 0 rows_big in
  let a := fst (train_preprocess no_number_to_string rows_big) in
  let n := List.length vals in
  let s := fold_left fadd vals fzero in
  let s2 := fold_left (fun acc f => fadd acc (fmul f f)) vals fzero in
  let mean := if Nat.eqb n 0%nat then fzero else fdiv s (float_of_nat n) in
  let var := fsub (fdiv s2 (float_of_nat n)) (fmul mean mean) in
  nth_error (numericMeans a) 0 = Some mean /\
  (n = 0%nat -> nth_error (numericStds a) 0 = Some fone) /\
  (n <> 0%nat ->
   nth_error (numericStds a) 0 = Some (fsqrt (js_max var f1em12)) /\
   (fgt (fsqrt (js_max var f1em12)) fzero = true <-> is_nan var = false)).
Proof.
  split; [vm_compute; reflexivity|].
  apply (statistics_pass_spec no_number_to_string rows_big 0 0).
  vm_compute. reflexivity.
Defined.

Local Open Scope nat_scope.

(** *** Writes into the encoded vector *)

Lemma aget_aset {A} (o : list (string * A)) (k k' : string) (v : A) :
  aget (aset o k v) k' = if String.eqb k' k then Some v else aget o k'.
Proof.
  induction o as [|[k0 v0] o IH]; simpl.
  - reflexivity.
  - destruct (String.eqb_spec k k0) as [->|Hne]; simpl.
    + destruct (String.eqb k' k0); reflexivity.
    + rewrite IH. destruct (String.eqb_spec k' k0) as [->|]; [|reflexivity].
      destruct (String.eqb_spec k0 k); congruence.
Qed.

Lemma js_set_length (vec : list cell) (i : nat) (x : cell) :
  i < List.length vec -> List.length (js_set vec i x) = List.length vec.
Proof.
  revert i. induction vec as [|c vec IH]; intros [|i] Hi; simpl in *; try lia; auto.
  f_equal. apply IH. lia.
Qed.

Lemma js_set_length_le (vec : list cell) (i : nat) (x : cell) :
  List.length vec <= List.length (js_set vec i x).
Proof.
  revert i. induction vec as [|c vec IH]; intros [|i]; simpl; try lia.
  specialize (IH i). lia.
Qed.

Lemma js_set_same (vec : list cell) (i : nat) (x : cell) :
  i < List.length vec -> nth_error (js_set vec i x) i = Some x.
Proof.
  revert i. induction vec as [|c vec IH]; intros [|i] Hi; simpl in *; try lia; auto.
  apply IH. lia.
Qed.

Lemma js_set_other (vec : list cell) (i j : nat) (x : cell) :
  j < List.length vec -> j <> i -> nth_error (js_set vec i x) j = nth_error vec j.
Proof.
  revert i j. induction vec as [|c vec IH]; intros [|i] [|j] Hj Hne; simpl in *; try lia; auto.
  apply IH; lia.
Qed.

Section Writes.

Variable g : nat -> nat -> cell.

Lemma write_all_length (l : list (nat * nat)) : forall vec,
  (forall c p, In (c, p) l -> p < List.length vec) ->
  List.length (fold_left (fun vec '(c, p) => js_set vec p (g c p)) l vec) = List.length vec.
Proof.
  induction l as [|[c0 p0] l IH]; intros vec Hb; simpl; [reflexivity|].
  simpl.
  assert (Hl : List.length (js_set vec p0 (g c0 p0)) = List.length vec)
    by (apply js_set_length, (Hb c0); left; reflexivity).
  rewrite IH; [exact Hl|]. intros c p Hin. rewrite Hl. apply (Hb c). right. exact Hin.
Qed.

Lemma write_all_out (l : list (nat * nat)) (p : nat) : forall vec,
  ~ In p (map snd l) -> p < List.length vec ->
  nth_error (fold_left (fun vec '(c, p) => js_set vec p (g c p)) l vec) p = nth_error vec p.
Proof.
  induction l as [|[c0 p0] l IH]; intros vec Hp Hlt; simpl; [reflexivity|].
  simpl in *.
  rewrite IH.
  - apply js_set_other; [exact Hlt|]. intros ->. apply Hp. left. reflexivity.
  - intros H. apply Hp. right. exact H.
  - pose proof (js_set_length_le vec p0 (g c0 p0)). lia.
Qed.

Lemma write_all_in (l : list (nat * nat)) (c p : nat) : forall vec,
  NoDup (map snd l) ->
  (forall c p, In (c, p) l -> p < List.length vec) ->
  In (c, p) l ->
  nth_error (fold_left (fun vec '(c, p) => js_set vec p (g c p)) l vec) p = Some (g c p).
Proof.
  induction l as [|[c0 p0] l IH]; intros vec Hnd Hb Hin; [destruct Hin|].
  simpl in *. inversion Hnd as [|? ? Hn Hnd']; subst.
  assert (Hl : List.length (js_set vec p0 (g c0 p0)) = List.length vec)
    by (apply js_set_length, (Hb c0); left; reflexivity).
  destruct Hin as [Heq|Hin].
  - injection Heq as <- <-.
    rewrite write_all_out; [|exact Hn|rewrite Hl; apply (Hb c0); left; reflexivity].
    apply js_set_same. apply (Hb c0). left. reflexivity.
  - apply IH; [exact Hnd'| |exact Hin].
    intros c' p' Hin'. rewrite Hl. apply (Hb c'). right. exact Hin'.
Qed.

End Writes.

Lemma combine_seq_snd (l : list nat) : forall k,
  map snd (combine l (seq k (List.length l))) = seq k (List.length l).
Proof. induction l as [|c l IH]; intros k; simpl; [reflexivity|]. now rewrite IH. Qed.

Lemma combine_seq_in (l : list nat) : forall k pos c,
  nth_error l pos = Some c -> In (c, k + pos) (combine l (seq k (List.length l))).
Proof.
  induction l as [|c0 l IH]; intros k pos c H; [destruct pos; discriminate|].
  destruct pos as [|pos]; simpl in *.
  - left. injection H as ->. f_equal. lia.
  - right. replace (k + S pos) with (S k + pos) by lia. apply IH. exact H.
Qed.

Lemma combine_seq_bound (l : list nat) (c p : nat) :
  In (c, p) (combine l (seq 0 (List.length l))) -> p < List.length l.
Proof. intros H. apply in_combine_r, in_seq in H. lia. Qed.

(** The numeric passes write [pos] with the value of its column and leave
    every other cell in place. *)
Lemma train_numeric_nth (a : artifact) (x : row) (vec : list cell) (pos c : nat) :
  List.length (numericIndices a) <= List.length vec ->
  nth_error (numericIndices a) pos = Some c ->
  nth_error (train_numeric a x vec) pos = Some (Num (train_numeric_value a x c pos)).
Proof.
  intros Hlen Hc.
  apply (write_all_in (fun c p => Num (train_numeric_value a x c p))).
  - rewrite combine_seq_snd. apply seq_NoDup.
  - intros c' p' Hin. apply combine_seq_bound in Hin. lia.
  - apply (combine_seq_in _ 0). exact Hc.
Qed.

Lemma infer_numeric_nth (a : artifact) (x : row) (vec : list cell) (pos c : nat) :
  List.length (numericIndices a) <= List.length vec ->
  nth_error (numericIndices a) pos = Some c ->
  nth_error (infer_numeric a x vec) pos = Some (Num (infer_numeric_value a x c pos)).
Proof.
  intros Hlen Hc.
  apply (write_all_in (fun c p => Num (infer_numeric_value a x c p))).
  - rewrite combine_seq_snd. apply seq_NoDup.
  - intros c' p' Hin. apply combine_seq_bound in Hin. lia.
  - apply (combine_seq_in _ 0). exact Hc.
Qed.

Lemma train_numeric_length (a : artifact) (x : row) (vec : list cell) :
  List.length (numericIndices a) <= List.length vec ->
  List.length (train_numeric a x vec) = List.length vec.
Proof.
  intros Hlen. apply (write_all_length (fun c p => Num (train_numeric_value a x c p))).
  intros c p Hin. apply combine_seq_bound in Hin. lia.
Qed.

Lemma infer_numeric_length (a : artifact) (x : row) (vec : list cell) :
  List.length (numericIndices a) <= List.length vec ->
  List.length (infer_numeric a x vec) = List.length vec.
Proof.
  intros Hlen. apply (write_all_length (fun c p => Num (infer_numeric_value a x c p))).
  intros c p Hin. apply combine_seq_bound in Hin. lia.
Qed.

Lemma train_numeric_high (a : artifact) (x : row) (vec : list cell) (p : nat) :
  List.length (numericIndices a) <= p -> p < List.length vec ->
  nth_error (train_numeric a x vec) p = nth_error vec p.
Proof.
  intros Hp Hlt. apply (write_all_out (fun c p => Num (train_numeric_value a x c p))); [|exact Hlt].
  rewrite combine_seq_snd. intros Hin. apply in_seq in Hin. lia.
Qed.

Lemma infer_numeric_high (a : artifact) (x : row) (vec : list cell) (p : nat) :
  List.length (numericIndices a) <= p -> p < List.length vec ->
  nth_error (infer_numeric a x vec) p = nth_error vec p.
Proof.
  intros Hp Hlt. apply (write_all_out (fun c p => Num (infer_numeric_value a x c p))); [|exact Hlt].
  rewrite combine_seq_snd. intros Hin. apply in_seq in Hin. lia.
Qed.

(** *** The layout and the maps of a trained artifact *)

Lemma layout_inv (names : list string) (vbf : list (string * list string))
    (sIdx : list nat) (lo : nat) : forall (offs : offsets) (td : nat),
  lo <= td ->
  (forall n o s, aget offs n = Some (o, s) -> lo <= o /\ o + s <= td) ->
  let r := fold_left (fun '(offs, td) i =>
               let name := feature_name names i in
               let size := List.length (vocab_of vbf name) in
               (aset offs name (td, size), td + size))
            sIdx (offs, td) in
  lo <= snd r /\
  (forall n o s, aget (fst r) n = Some (o, s) -> lo <= o /\ o + s <= snd r) /\
  (forall n, aget offs n <> None -> aget (fst r) n <> None) /\
  (forall i, In i sIdx -> aget (fst r) (feature_name names i) <> None).
Proof.
  induction sIdx as [|i sIdx IH]; intros offs td Hlo Hb; simpl.
  - split; [exact Hlo|split; [exact Hb|split; [auto|intros i []]]].
  - set (name := feature_name names i).
    set (size := List.length (vocab_of vbf name)).
    destruct (IH (aset offs name (td, size)) (td + size)) as (H1 & H2 & H3 & H4).
    + lia.
    + intros n o s Hn. rewrite aget_aset in Hn.
      destruct (String.eqb n name).
      * injection Hn as <- <-. lia.
      * apply Hb in Hn. lia.
    + split; [exact H1|split; [exact H2|split]].
      * intros n Hn. apply H3. rewrite aget_aset. destruct (String.eqb n name); congruence.
      * intros j [<-|Hj]; auto. apply H3. rewrite aget_aset, String.eqb_refl. discriminate.
Qed.

Lemma finalize_vocab_keys (names : list string) (sIdx : list nat)
    (sets : list (string * list string)) : forall vbf ibf,
  let r := fold_left (fun '(vbf, ibf) i =>
               let key := feature_name names i in
               let s := vocab_of sets key in
               let s' := if set_has s MISSING then s else set_add s MISSING in
               let vocab := js_sort s' in
               (aset vbf key vocab, aset ibf key (build_map vocab)))
            sIdx (vbf, ibf) in
  (forall n, aget ibf n <> None -> aget (snd r) n <> None) /\
  (forall i, In i sIdx -> aget (snd r) (feature_name names i) <> None).
Proof.
  induction sIdx as [|i sIdx IH]; intros vbf ibf; simpl.
  - split; [auto|intros i []].
  - edestruct IH as [H1 H2]. split.
    + intros n Hn. apply H1. rewrite aget_aset. destruct (String.eqb _ _); congruence.
    + intros j [<-|Hj]; [|apply H2; exact Hj].
      apply H1. rewrite aget_aset, String.eqb_refl. discriminate.
Qed.

Lemma layout_bounds (names : list string) (vbf : list (string * list string))
    (sIdx : list nat) (lo : nat) :
  let r := layout names vbf sIdx lo in
  lo <= snd r /\
  (forall n o s, aget (fst r) n = Some (o, s) -> lo <= o /\ o + s <= snd r) /\
  (forall i, In i sIdx -> aget (fst r) (feature_name names i) <> None).
Proof.
  destruct (layout_inv names vbf sIdx lo [] lo (le_n _)) as (H1 & H2 & _ & H4).
  - intros n o s H. discriminate H.
  - exact (conj H1 (conj H2 H4)).
Qed.

(** The shape facts about the artifact that the encoders rely on. *)
Lemma trained_shape (nts : float -> string) (rows : list example) :
  let a := fst (train_preprocess nts rows) in
  let ibf := snd (train_preprocess nts rows) in
  List.length (numericIndices a) <= totalDim a /\
  (forall n o s, aget (oneHotOffsets a) n = Some (o, s) ->
     List.length (numericIndices a) <= o /\ o + s <= totalDim a) /\
  (forall i, In i (stringIndices a) ->
     aget (oneHotOffsets a) (feature_name (featureNames a) i) <> None /\
     aget ibf (feature_name (featureNames a) i) <> None).
Proof.
  unfold train_preprocess.
  pose proof (finalize_vocab_keys (schema_featureNames rows) (schema_stringIndices rows)
    (vocab_pass nts (schema_featureNames rows) (schema_stringIndices rows) rows) [] [])
    as [_ Hk].
  unfold finalize_vocab.
  destruct (fold_left _ (schema_stringIndices rows) ([], [])) as [vbf ibf].
  simpl in Hk.
  pose proof (layout_bounds (schema_featureNames rows) vbf (schema_stringIndices rows)
    (List.length (schema_numericIndices rows))) as Hl.
  destruct (layout (schema_featureNames rows) vbf (schema_stringIndices rows)
              (List.length (schema_numericIndices rows))) as [offs td].
  simpl in Hl |- *. destruct Hl as (H1 & H2 & H4).
  split; [exact H1|split; [exact H2|]]. intros i Hi. split; auto.
Qed.

(** *** The one-hot passes *)

Lemma onehot_write (lo : nat) (vec : list cell) (offset size n : nat) :
  lo <= offset -> offset + size <= List.length vec -> n < size ->
  cells_01_from lo vec ->
  List.length (js_set vec (offset + n) (Num fone)) = List.length vec /\
  cells_01_from lo (js_set vec (offset + n) (Num fone)) /\
  (forall p, p < lo -> nth_error (js_set vec (offset + n) (Num fone)) p = nth_error vec p).
Proof.
  intros Hlo Hsz Hn Hc.
  assert (Hl : List.length (js_set vec (offset + n) (Num fone)) = List.length vec)
    by (apply js_set_length; lia).
  split; [exact Hl|split].
  - intros p Hp Hlt. rewrite Hl in Hlt.
    destruct (Nat.eq_dec p (offset + n)) as [->|Hne].
    + right. apply js_set_same. lia.
    + rewrite js_set_other by assumption. apply Hc; assumption.
  - intros p Hp. apply js_set_other; lia.
Qed.

Lemma train_onehot_inv (nts : float -> string) (a : artifact) (ibf : list (string * tokmap))
    (x : row) (sIdx : list nat) : forall vec,
  (forall n o s, aget (oneHotOffsets a) n = Some (o, s) ->
     List.length (numericIndices a) <= o /\ o + s <= List.length vec) ->
  (forall i, In i sIdx ->
     aget (oneHotOffsets a) (feature_name (featureNames a) i) <> None /\
     aget ibf (feature_name (featureNames a) i) <> None) ->
  cells_01_from (List.length (numericIndices a)) vec ->
  exists vec', train_onehot nts a ibf x sIdx vec = Some vec' /\
    List.length vec' = List.length vec /\
    cells_01_from (List.length (numericIndices a)) vec' /\
    (forall p, p < List.length (numericIndices a) -> nth_error vec' p = nth_error vec p).
Proof.
  induction sIdx as [|i sIdx IH]; intros vec Hb Hk Hc; simpl.
  - eexists. split; [reflexivity|]. auto.
  - destruct (Hk i (or_introl eq_refl)) as [Ho Hi].
    destruct (aget (oneHotOffsets a) (feature_name (featureNames a) i)) as [[offset size]|] eqn:Hoff;
      [|contradiction].
    destruct (aget ibf (feature_name (featureNames a) i)) as [map|]; [|contradiction].
    destruct (Hb _ _ _ Hoff) as [Hlo Hsz].
    assert (Hstep : forall vec1,
      vec1 = vec \/
      (exists n, n < size /\ vec1 = js_set vec (offset + n) (Num fone)) ->
      exists vec', train_onehot nts a ibf x sIdx vec1 = Some vec' /\
        List.length vec' = List.length vec /\
        cells_01_from (List.length (numericIndices a)) vec' /\
        (forall p, p < List.length (numericIndices a) -> nth_error vec' p = nth_error vec p)).
    { intros vec1 [->|(n & Hn & ->)].
      - apply IH; auto. intros j Hj. apply Hk. right. exact Hj.
      - destruct (onehot_write _ vec offset size n Hlo Hsz Hn Hc) as (Hl & Hc' & Hp).
        destruct (IH (js_set vec (offset + n) (Num fone))) as (v' & E & Hl' & Hc'' & Hp').
        + rewrite Hl. exact Hb.
        + intros j Hj. apply Hk. right. exact Hj.
        + exact Hc'.
        + exists v'. split; [exact E|]. rewrite Hl' , Hl. split; [reflexivity|].
          split; [exact Hc''|]. intros p Hlt. rewrite Hp' by exact Hlt. apply Hp. exact Hlt. }
    apply Hstep.
    destruct (lookup_index map (token nts (get x (feature_name (featureNames a) i)))) as [|n|];
      auto.
    destruct (Nat.ltb_spec n size); auto. right. exists n. auto.
Qed.

Lemma infer_onehot_inv (nts : float -> string) (a : artifact) (ibf : list (string * tokmap))
    (x : row) (sIdx : list nat) : forall vec,
  (forall n o s, aget (oneHotOffsets a) n = Some (o, s) ->
     List.length (numericIndices a) <= o /\ o + s <= List.length vec) ->
  cells_01_from (List.length (numericIndices a)) vec ->
  let vec' := infer_onehot nts a ibf x sIdx vec in
  List.length vec' = List.length vec /\
  cells_01_from (List.length (numericIndices a)) vec' /\
  (forall p, p < List.length (numericIndices a) -> nth_error vec' p = nth_error vec p).
Proof.
  induction sIdx as [|i sIdx IH]; intros vec Hb Hc; simpl.
  - auto.
  - destruct (aget (oneHotOffsets a) (feature_name (featureNames a) i)) as [[offset size]|] eqn:Hoff;
      [|apply IH; auto].
    destruct (Hb _ _ _ Hoff) as [Hlo Hsz].
    assert (Hstep : forall vec1,
      vec1 = vec \/
      (exists n, n < size /\ vec1 = js_set vec (offset + n) (Num fone)) ->
      let vec' := infer_onehot nts a ibf x sIdx vec1 in
      List.length vec' = List.length vec /\
      cells_01_from (List.length (numericIndices a)) vec' /\
      (forall p, p < List.length (numericIndices a) -> nth_error vec' p = nth_error vec p)).
    { intros vec1 Hv. cbv zeta. destruct Hv as [->|(n & Hn & ->)].
      - apply IH; auto.
      - destruct (onehot_write _ vec offset size n Hlo Hsz Hn Hc) as (Hl & Hc' & Hp).
        destruct (IH (js_set vec (offset + n) (Num fone))) as (Hl' & Hc'' & Hp').
        + rewrite Hl. exact Hb.
        + exact Hc'.
        + rewrite Hl', Hl. split; [reflexivity|]. split; [exact Hc''|].
          intros p Hlt. rewrite Hp' by exact Hlt. apply Hp. exact Hlt. }
    apply Hstep.
    destruct (match aget ibf (feature_name (featureNames a) i) with
              | Some map => lookup_index map (token nts (get x (feature_name (featureNames a) i)))
              | None => PUndefined end) as [|n|];
      auto.
    destruct (Nat.ltb_spec n size); auto. right. exists n. auto.
Qed.

(** *** The encoders on a trained artifact *)

Lemma zeros_nth (n p : nat) : p < n -> nth_error (zeros n) p = Some (Num fzero).
Proof. apply nth_error_repeat. Qed.

Lemma zeros_length (n : nat) : List.length (zeros n) = n.
Proof. apply repeat_length. Qed.

Lemma numeric_prefix_01 (a : artifact) (f : list cell -> list cell) :
  List.length (f (zeros (totalDim a))) = totalDim a ->
  (forall p, List.length (numericIndices a) <= p -> p < totalDim a ->
     nth_error (f (zeros (totalDim a))) p = nth_error (zeros (totalDim a)) p) ->
  cells_01_from (List.length (numericIndices a)) (f (zeros (totalDim a))).
Proof.
  intros Hl Hh p Hp Hlt. rewrite Hl in Hlt. left.
  rewrite Hh by assumption. apply zeros_nth. exact Hlt.
Qed.

Lemma train_encode_shape (nts : float -> string) (rows : list example) (x : row) :
  let a := fst (train_preprocess nts rows) in
  let ibf := snd (train_preprocess nts rows) in
  exists vec, train_encode nts a ibf x = Some vec /\
    List.length vec = totalDim a /\
    cells_01_from (List.length (numericIndices a)) vec /\
    (forall pos c, nth_error (numericIndices a) pos = Some c ->
       nth_error vec pos = Some (Num (train_numeric_value a x c pos))).
Proof.
  intros a ibf.
  destruct (trained_shape nts rows) as (Hlo & Hb & Hk). fold a ibf in Hlo, Hb, Hk.
  assert (Hl : List.length (train_numeric a x (zeros (totalDim a))) = totalDim a).
  { rewrite train_numeric_length; rewrite zeros_length; [reflexivity|exact Hlo]. }
  destruct (train_onehot_inv nts a ibf x (stringIndices a) (train_numeric a x (zeros (totalDim a))))
    as (vec & E & Hl' & Hc & Hp).
  - rewrite Hl. exact Hb.
  - exact Hk.
  - apply (numeric_prefix_01 a (train_numeric a x)); [exact Hl|].
    intros p Hp Hlt. apply train_numeric_high; [exact Hp|rewrite zeros_length; exact Hlt].
  - exists vec. split; [exact E|]. split; [rewrite Hl', Hl; reflexivity|]. split; [exact Hc|].
    intros pos c Hc'. rewrite Hp.
    + apply train_numeric_nth; [rewrite zeros_length; exact Hlo|exact Hc'].
    + apply nth_error_Some. congruence.
Qed.

Lemma encodeRow_shape (nts : float -> string) (rows : list example) (x : row) :
  let a := fst (train_preprocess nts rows) in
  let vec := encodeRow nts a x in
  List.length vec = totalDim a /\
  cells_01_from (List.length (numericIndices a)) vec /\
  (forall pos c, nth_error (numericIndices a) pos = Some c ->
     nth_error vec pos = Some (Num (infer_numeric_value a x c pos))).
Proof.
  intros a vec.
  destruct (trained_shape nts rows) as (Hlo & Hb & _). fold a in Hlo, Hb.
  assert (Hl : List.length (infer_numeric a x (zeros (totalDim a))) = totalDim a).
  { rewrite infer_numeric_length; rewrite zeros_length; [reflexivity|exact Hlo]. }
  destruct (infer_onehot_inv nts a (infer_index a) x (stringIndices a)
              (infer_numeric a x (zeros (totalDim a)))) as (Hl' & Hc & Hp).
  - rewrite Hl. exact Hb.
  - apply (numeric_prefix_01 a (infer_numeric a x)); [exact Hl|].
    intros p Hp Hlt. apply infer_numeric_high; [exact Hp|rewrite zeros_length; exact Hlt].
  - unfold vec, encodeRow. split; [rewrite Hl', Hl; reflexivity|]. split; [exact Hc|].
    intros pos c Hc'. rewrite Hp.
    + apply infer_numeric_nth; [rewrite zeros_length; exact Hlo|exact Hc'].
    + apply nth_error_Some. congruence.
Qed.

(** C10 (corrected): for every record, both encoders give a vector of
    [totalDim] numbers (no hole); every cell of the one-hot blocks, from
    [numericIndices.length] on, is 0 or 1; the numeric slots hold the
    imputed (and, in training, standardised) values, which are not always
    finite. *)
Theorem encoded_vector_cells (nts : float -> string) (rows : list example) (x : row) :
  let a := fst (train_preprocess nts rows) in
  let ibf := snd (train_preprocess nts rows) in
  (exists vec, train_encode nts a ibf x = Some vec /\
     List.length vec = totalDim a /\
     cells_01_from (List.length (numericIndices a)) vec /\
     (forall pos c, nth_error (numericIndices a) pos = Some c ->
        nth_error vec pos = Some (Num (train_numeric_value a x c pos)))) /\
  (List.length (encodeRow nts a x) = totalDim a /\
   cells_01_from (List.length (numericIndices a)) (encodeRow nts a x) /\
   (forall pos c, nth_error (numericIndices a) pos = Some c ->
      nth_error (encodeRow nts a x) pos = Some (Num (infer_numeric_value a x c pos)))).
Proof.
  split; [apply train_encode_shape|apply encodeRow_shape].
Qed.

(** C10, counterexample: on [rows_big] the mean is Infinity and the row
    [{Age: 2^1023}] is encoded as [-Infinity] by training. *)
Lemma encoded_vector_cells_counterexample :
  numericMeans (fst (train_preprocess no_number_to_string rows_big)) = [S754_infinity false] /\
  train_encode no_number_to_string
    (fst (train_preprocess no_number_to_string rows_big))
    (snd (train_preprocess no_number_to_string rows_big))
    [("Age", VNum big)] = Some [Num (S754_infinity true)].
Proof. split; vm_compute; reflexivity. Qed.

Lemma trained_fields (nts : float -> string) (rows : list example) :
  featureNames (fst (train_preprocess nts rows)) = schema_featureNames rows /\
  numericIndices (fst (train_preprocess nts rows)) = schema_numericIndices rows.
Proof.
  unfold train_preprocess.
  destruct (finalize_vocab _ _ _) as [vbf ibf].
  destruct (layout _ _ _ _) as [offs td]. split; reflexivity.
Qed.

Lemma trained_stats_nth (nts : float -> string) (rows : list example) (pos colIdx : nat) :
  nth_error (schema_numericIndices rows) pos = Some colIdx ->
  let vals := finite_values (schema_featureNames rows) colIdx rows in
  let st := {| sum := fold_left fadd vals fzero;
               sumSquare := fold_left (fun s f => fadd s (fmul f f)) vals fzero;
               count := List.length vals |} in
  nth_error (numericMeans (fst (train_preprocess nts rows))) pos = Some (mean_of st) /\
  nth_error (numericStds (fst (train_preprocess nts rows))) pos = Some (std_of st (mean_of st)).
Proof.
  intros Hpos vals st.
  destruct (train_preprocess_stats nts rows) as [Hm Hs].
  rewrite Hm, Hs. unfold numericMeans_of, numericStds_of.
  rewrite !nth_error_map, (stats_pass_nth _ _ rows pos colIdx Hpos). split; reflexivity.
Qed.

(** C2 (corrected): a numeric column with no finite value in the training
    data gets mean 0 and std 1; a record whose value there is missing or
    not a finite number is encoded 0 in that slot by both encoders (so every
    training record is), but a finite value [v] is encoded [(v - 0) / 1] by
    training and [v] by inference, not 0. *)
Theorem zero_count_feature_slot (nts : float -> string) (rows : list example) (x : row)
    (pos colIdx : nat)
    (Hpos : nth_error (schema_numericIndices rows) pos = Some colIdx)
    (Hnone : finite_values (schema_featureNames rows) colIdx rows = []) :
  let a := fst (train_preprocess nts rows) in
  let ibf := snd (train_preprocess nts rows) in
  let v := get x (feature_name (featureNames a) colIdx) in
  nth_error (numericMeans a) pos = Some fzero /\
  nth_error (numericStds a) pos = Some fone /\
  (finite_number v = None ->
     (exists vec, train_encode nts a ibf x = Some vec /\ nth_error vec pos = Some (Num fzero)) /\
     nth_error (encodeRow nts a x) pos = Some (Num fzero)) /\
  (forall f, finite_number v = Some f ->
     (exists vec, train_encode nts a ibf x = Some vec /\
        nth_error vec pos = Some (Num (fdiv (fsub f fzero) fone))) /\
     nth_error (encodeRow nts a x) pos = Some (Num f)).
Proof.
  intros a ibf v.
  destruct (trained_stats_nth nts rows pos colIdx Hpos) as [Hm Hs].
  rewrite Hnone in Hm, Hs. cbn in Hm, Hs. fold a in Hm, Hs.
  destruct (trained_fields nts rows) as [_ Hn]. fold a in Hn.
  rewrite <- Hn in Hpos.
  destruct (train_encode_shape nts rows x) as (vec & E & _ & _ & Hv). fold a ibf in E, Hv.
  destruct (encodeRow_shape nts rows x) as (_ & _ & Hw). fold a in Hw.
  pose proof (Hv _ _ Hpos) as Hvp. pose proof (Hw _ _ Hpos) as Hwp.
  unfold train_numeric_value, at_pos in Hvp. unfold infer_numeric_value, at_pos in Hwp.
  rewrite (nth_error_nth _ _ _ Hm), (nth_error_nth _ _ _ Hs) in Hvp.
  rewrite (nth_error_nth _ _ _ Hm) in Hwp. fold v in Hvp, Hwp.
  split; [exact Hm|split; [exact Hs|split]].
  - intros Hf. rewrite Hf in Hvp, Hwp. split; [|exact Hwp].
    exists vec. split; [exact E|]. rewrite Hvp. vm_compute. reflexivity.
  - intros f Hf. rewrite Hf in Hvp, Hwp. split; [|exact Hwp].
    exists vec. split; [exact E|]. rewrite Hvp. reflexivity.
Qed.

(** C2, counterexample: [Age] has no finite value in [rows_missing], yet the
    record [{Age: 5}] is encoded 5, not 0, in the [Age] slot. *)
Lemma zero_count_feature_slot_counterexample :
  finite_values (schema_featureNames rows_missing) 0 rows_missing = [] /\
  option_map (fun v => nth_error v 0)
    (train_encode no_number_to_string
       (fst (train_preprocess no_number_to_string rows_missing))
       (snd (train_preprocess no_number_to_string rows_missing))
       [("Age", VNum (float_of_Z 5))]) = Some (Some (Num (float_of_Z 5))) /\
  nth_error (encodeRow no_number_to_string
               (fst (train_preprocess no_number_to_string rows_missing))
               [("Age", VNum (float_of_Z 5))]) 0 = Some (Num (float_of_Z 5)).
Proof. repeat split; vm_compute; reflexivity. Qed.

Lemma zero_count_feature_slot_witness :
  nth_error (schema_numericIndices rows_missing) 0 = Some 0 /\
  finite_values (schema_featureNames rows_missing) 0 rows_missing = [] /\
  let a := fst (train_preprocess no_number_to_string rows_missing) in
  let ibf := snd (train_preprocess no_number_to_string rows_missing) in
  let x := [("Age", VNum S754_nan)] in
  let v := get x (feature_name (featureNames a) 0) in
  nth_error (numericMeans a) 0 = Some fzero /\
  nth_error (numericStds a) 0 = Some fone /\
  (finite_number v = None ->
     (exists vec, train_encode no_number_to_string a ibf x = Some vec /\
        nth_error vec 0 = Some (Num fzero)) /\
     nth_error (encodeRow no_number_to_string a x) 0 = Some (Num fzero)) /\
  (forall f, finite_number v = Some f ->
     (exists vec, train_encode no_number_to_string a ibf x = Some vec /\
        nth_error vec 0 = Some (Num (fdiv (fsub f fzero) fone))) /\
     nth_error (encodeRow no_number_to_string a x) 0 = Some (Num f)).
Proof.
  split; [vm_compute; reflexivity|]. split; [vm_compute; reflexivity|].
  apply (zero_count_feature_slot no_number_to_string rows_missing [("Age", VNum S754_nan)] 0 0);
    vm_compute; reflexivity.
Defined.

(** *** Persisting the artifact *)

Local Open Scope Z_scope.

Lemma pos_iter_xO (p k : positive) : Zpos (Pos.iter xO p k) = Zpos p * 2 ^ Zpos k.
Proof.
  induction k as [|k IH] using Pos.peano_ind.
  - simpl. lia.
  - rewrite Pos.iter_succ, Pos2Z.inj_succ, Z.pow_succ_r by lia.
    change (Zpos (xO (Pos.iter xO p k))) with (2 * Zpos (Pos.iter xO p k)).
    rewrite IH. lia.
Qed.

(** Rounding is the identity on a mantissa of at most 53 bits with an
    exponent in range. *)
Lemma binary_round_aux_exact (m : positive) (e : Z) :
  Zdigits2 (Zpos m) <= prec -> emin prec emax <= e -> e <= emax - prec ->
  binary_round_aux prec emax false (Zpos m) e loc_Exact = S754_finite false m e.
Proof.
  intros Hd He1 He2.
  assert (Hs : forall l, shr_fexp prec emax (Zpos m) e l = (shr_record_of_loc (Zpos m) l, e)).
  { intros l. unfold shr_fexp, shr.
    assert (Hn : fexp prec emax (Zdigits2 (Zpos m) + e) - e <= 0)
      by (unfold fexp; unfold prec, emax, emin in *; lia).
    destruct (fexp prec emax (Zdigits2 (Zpos m) + e) - e); [reflexivity|lia|reflexivity]. }
  unfold binary_round_aux. rewrite Hs.
  cbn [shr_record_of_loc shr_m loc_of_shr_record round_nearest_even].
  rewrite Hs. cbn [shr_record_of_loc shr_m].
  destruct (Z.leb_spec e (emax - prec)); [reflexivity|lia].
Qed.

Lemma float_of_nat_exact (n : nat) :
  safe_nat n = true ->
  float_of_nat n = S754_zero false \/ exists m e, float_of_nat n = S754_finite false m e.
Proof.
  unfold safe_nat, float_of_nat, float_of_Z. intros Hn. apply Z.ltb_lt in Hn.
  destruct (Z.of_nat n) as [|p|p] eqn:Hz; [left; reflexivity| |lia].
  right. simpl. unfold binary_round.
  assert (Hd : Zpos (digits2_pos p) <= 53).
  { change (Zpos (digits2_pos p)) with (Zdigits2 (Zpos p)). rewrite Zdigits2_log2 by lia.
    assert (Z.log2 (Zpos p) < 53) by (apply Z.log2_lt_pow2; lia). lia. }
  unfold shl_align.
  destruct (fexp prec emax (Zpos (digits2_pos p) + 0) - 0) as [|k|k] eqn:Hk.
  - exists p, 0. apply binary_round_aux_exact; simpl; unfold prec, emax, emin; lia.
  - exists p, 0. apply binary_round_aux_exact; simpl; unfold prec, emax, emin; lia.
  - exists (Pos.iter xO p k), (fexp prec emax (Zpos (digits2_pos p) + 0)).
    assert (Hm : Zdigits2 (Zpos (Pos.iter xO p k)) = Zpos (digits2_pos p) + Zpos k).
    { rewrite Zdigits2_log2 by lia. rewrite pos_iter_xO, Z.log2_mul_pow2 by lia.
      change (Zpos (digits2_pos p)) with (Zdigits2 (Zpos p)).
      rewrite Zdigits2_log2 by lia. lia. }
    apply binary_round_aux_exact.
    + rewrite Hm. unfold fexp, prec, emax, emin in *. lia.
    + apply fexp_ge.
    + unfold fexp, prec, emax, emin in *. lia.
Qed.

Local Open Scope nat_scope.

Lemma json_number_exact (x : float) : json_exact x = true -> json_number x = JNum x.
Proof. destruct x as [[]|[]| |]; simpl; intros H; try reflexivity; discriminate H. Qed.

Lemma json_nat_exact (n : nat) :
  safe_nat n = true -> json_number (float_of_nat n) = JNum (float_of_nat n).
Proof.
  intros H. destruct (float_of_nat_exact n H) as [->|(m & e & ->)]; reflexivity.
Qed.

Lemma json_floats_roundtrip (l : list float) :
  forallb json_exact l = true -> json_roundtrip (json_floats l) = json_floats l.
Proof.
  intros H. unfold json_floats. simpl. f_equal. rewrite map_map.
  induction l as [|x l IH]; simpl in *; [reflexivity|].
  apply andb_prop in H as [Hx Hl]. rewrite json_number_exact by exact Hx. f_equal. auto.
Qed.

Lemma json_nats_roundtrip (l : list nat) :
  forallb safe_nat l = true -> json_roundtrip (json_nats l) = json_nats l.
Proof.
  intros H. unfold json_nats. simpl. f_equal. rewrite map_map.
  induction l as [|x l IH]; simpl in *; [reflexivity|].
  apply andb_prop in H as [Hx Hl]. rewrite json_nat_exact by exact Hx. f_equal. auto.
Qed.

Lemma json_strs_roundtrip (l : list string) : json_roundtrip (json_strs l) = json_strs l.
Proof.
  unfold json_strs. cbn [json_roundtrip]. rewrite map_map. reflexivity.
Qed.

(** C7 (corrected): [JSON.parse(JSON.stringify(a))] gives back the
    artifact field for field, vocabularies in order, when its statistics are
    finite (or +0) and its counts are safe integers; a NaN or infinite
    statistic comes back as [null], and -0 as 0. *)
Theorem artifact_json_roundtrip (a : artifact)
    (Hok : artifact_numbers_ok a = true) :
  json_roundtrip (artifact_json a) = artifact_json a.
Proof.
  unfold artifact_numbers_ok in Hok.
  repeat rewrite andb_true_iff in Hok.
  destruct Hok as (((((Hm & Hs) & Hn) & Hsi) & Ho) & Ht).
  unfold artifact_json. cbn [json_roundtrip map].
  rewrite json_floats_roundtrip by exact Hm.
  rewrite json_floats_roundtrip by exact Hs.
  rewrite json_nats_roundtrip by exact Hn.
  rewrite json_nats_roundtrip by exact Hsi.
  rewrite json_strs_roundtrip.
  rewrite json_nat_exact by exact Ht.
  do 8 f_equal.
  - f_equal. induction (vocabByFeature a) as [|[k v] l IH]; cbn [map]; [reflexivity|].
    rewrite json_strs_roundtrip. f_equal. exact IH.
  - f_equal. f_equal.
    induction (oneHotOffsets a) as [|[k [o s]] l IH]; cbn [map forallb] in *; [reflexivity|].
    apply andb_prop in Ho as [Hos Hl]. apply andb_prop in Hos as [Ho' Hs'].
    cbn [json_roundtrip map].
    rewrite !json_nat_exact by assumption. f_equal. exact (IH Hl).
Qed.

Lemma artifact_json_roundtrip_witness :
  artifact_numbers_ok (fst (train_preprocess no_number_to_string rows_missing)) = true /\
  json_roundtrip (artifact_json (fst (train_preprocess no_number_to_string rows_missing))) =
  artifact_json (fst (train_preprocess no_number_to_string rows_missing)).
Proof.
  split; [vm_compute; reflexivity|].
  apply artifact_json_roundtrip. vm_compute. reflexivity.
Defined.

(** C7, counterexample: the artifact of [rows_big] has mean Infinity and
    std NaN; both come back from the round trip as [null]. *)
Lemma artifact_json_roundtrip_counterexample :
  let a := fst (train_preprocess no_number_to_string rows_big) in
  (match artifact_json a with
   | JObj l => (aget l "numericMeans", aget l "numericStds")
   | _ => (None, None)
   end) = (Some (JArr [JNum (S754_infinity false)]), Some (JArr [JNum S754_nan])) /\
  (match json_roundtrip (artifact_json a) with
   | JObj l => (aget l "numericMeans", aget l "numericStds")
   | _ => (None, None)
   end) = (Some (JArr [JNull]), Some (JArr [JNull])).
Proof. split; vm_compute; reflexivity. Qed.

(** ** Token maps *)

(** C3 (code defect): after training on [rows_missing] (block [HomePlanet]
    at offset 1, size 3), the unseen token ["constructor"] reads the
    inherited [Object.prototype.constructor], not [undefined], so the
    sentinel fallback is skipped and both encoders leave the block all
    zero. *)
Theorem onehot_block_unset_for_inherited_key :
  let a := fst (train_preprocess no_number_to_string rows_missing) in
  let ibf := snd (train_preprocess no_number_to_string rows_missing) in
  oneHotOffsets a = [("HomePlanet", (1, 3))] /\
  (exists m, aget ibf "HomePlanet" = Some m /\ obj_get m "constructor" = PInherited) /\
  train_encode no_number_to_string a ibf row_constructor =
    Some [Num (float_of_Z 5); Num fzero; Num fzero; Num fzero] /\
  encodeRow no_number_to_string a row_constructor =
    [Num (float_of_Z 5); Num fzero; Num fzero; Num fzero].
Proof.
  split; [vm_compute; reflexivity|]. split.
  - eexists. split; vm_compute; reflexivity.
  - split; vm_compute; reflexivity.
Qed.

(** C5 (code defect): a column whose value is ["__proto__"] has the sorted
    vocabulary [["__MISSING__"; "__proto__"]], but [map["__proto__"] = 1]
    sets no property, so in the maps of training and of inference the token
    reads the inherited prototype object instead of its position 1, and the
    record [{Name: "__proto__"}] is encoded with no cell set. *)
Theorem vocab_index_differs_from_position :
  let a := fst (train_preprocess no_number_to_string rows_proto) in
  let ibf := snd (train_preprocess no_number_to_string rows_proto) in
  vocabByFeature a = [("Name", [MISSING; "__proto__"])] /\
  aget ibf "Name" = Some [(MISSING, 0)] /\
  aget (infer_index a) "Name" = Some [(MISSING, 0)] /\
  obj_get [(MISSING, 0)] "__proto__" = PInherited /\
  train_encode no_number_to_string a ibf [("Name", VStr "__proto__")] =
    Some [Num fzero; Num fzero] /\
  encodeRow no_number_to_string a [("Name", VStr "__proto__")] = [Num fzero; Num fzero].
Proof. repeat split; vm_compute; reflexivity. Qed.

(** *** Token maps built from a vocabulary *)

Lemma obj_set_aget (m : tokmap) (k : string) (n : nat) (t : string) :
  aget (obj_set m k n) t =
  if String.eqb k "__proto__" then aget m t
  else if String.eqb t k then Some n else aget m t.
Proof. unfold obj_set. destruct (String.eqb k "__proto__"); [reflexivity|apply aget_aset]. Qed.

Lemma bm_fold_notin (L : list (string * nat)) : forall m t,
  ~ In t (map fst L) ->
  aget (fold_left (fun m '(tok, idx) => obj_set m tok idx) L m) t = aget m t.
Proof.
  induction L as [|[tok idx] L IH]; intros m t Ht; simpl in *; [reflexivity|].
  rewrite IH by tauto. rewrite obj_set_aget.
  destruct (String.eqb tok "__proto__"); [reflexivity|].
  destruct (String.eqb_spec t tok) as [->|]; [|reflexivity].
  exfalso. apply Ht. left. reflexivity.
Qed.

Lemma bm_fold_some (L : list (string * nat)) : forall m t k,
  aget (fold_left (fun m '(tok, idx) => obj_set m tok idx) L m) t = Some k ->
  aget m t = Some k \/ In (t, k) L.
Proof.
  induction L as [|[tok idx] L IH]; intros m t k H; simpl in *; [auto|].
  apply IH in H as [H|H]; [|auto].
  rewrite obj_set_aget in H.
  destruct (String.eqb tok "__proto__"); [auto|].
  destruct (String.eqb_spec t tok) as [->|]; [|auto].
  injection H as ->. auto.
Qed.

Lemma bm_fold_keep (L : list (string * nat)) : forall m t,
  aget m t <> None ->
  aget (fold_left (fun m '(tok, idx) => obj_set m tok idx) L m) t <> None.
Proof.
  induction L as [|[tok idx] L IH]; intros m t H; simpl; [exact H|].
  apply IH. rewrite obj_set_aget.
  destruct (String.eqb tok "__proto__"); [exact H|].
  destruct (String.eqb t tok); [discriminate|exact H].
Qed.

Lemma bm_fold_present (L : list (string * nat)) : forall m t,
  In t (map fst L) -> t <> "__proto__" ->
  aget (fold_left (fun m '(tok, idx) => obj_set m tok idx) L m) t <> None.
Proof.
  induction L as [|[tok idx] L IH]; intros m t Hin Hp; simpl in *; [contradiction|].
  destruct Hin as [->|Hin]; [|apply IH; assumption].
  apply bm_fold_keep. rewrite obj_set_aget.
  destruct (String.eqb_spec t "__proto__"); [contradiction|].
  rewrite String.eqb_refl. discriminate.
Qed.

Lemma combine_seq_fst (l : list string) : forall k,
  map fst (combine l (seq k (List.length l))) = l.
Proof. induction l as [|t l IH]; intros k; simpl; [reflexivity|]. now rewrite IH. Qed.

Lemma combine_seq_nth_error (l : list string) : forall k t n,
  In (t, n) (combine l (seq k (List.length l))) -> k <= n /\ nth_error l (n - k) = Some t.
Proof.
  induction l as [|t0 l IH]; intros k t n H; simpl in H; [contradiction|].
  destruct H as [H|H].
  - injection H as <- <-. rewrite Nat.sub_diag. split; [lia|reflexivity].
  - apply IH in H as [Hk Hn]. split; [lia|].
    replace (n - k) with (S (n - S k)) by lia. exact Hn.
Qed.

Lemma build_map_present (vocab : list string) (t : string) :
  In t vocab -> t <> "__proto__" ->
  exists k, aget (build_map vocab) t = Some k /\ nth_error vocab k = Some t.
Proof.
  intros Hin Hp. unfold build_map.
  pose proof (bm_fold_present (combine vocab (seq 0 (List.length vocab))) [] t) as H.
  rewrite combine_seq_fst in H. specialize (H Hin Hp).
  destruct (aget _ t) as [k|] eqn:E; [|contradiction].
  exists k. split; [reflexivity|].
  apply bm_fold_some in E as [E|E]; [discriminate|].
  apply combine_seq_nth_error in E as [_ E]. rewrite Nat.sub_0_r in E. exact E.
Qed.

Lemma build_map_absent (vocab : list string) (t : string) :
  ~ In t vocab -> aget (build_map vocab) t = None.
Proof.
  intros Hn. unfold build_map. rewrite bm_fold_notin; [reflexivity|].
  rewrite combine_seq_fst. exact Hn.
Qed.

Lemma set_has_In (s : list string) (x : string) : set_has s x = true <-> In x s.
Proof.
  unfold set_has. rewrite existsb_exists. split.
  - intros (y & Hy & E). apply String.eqb_eq in E. subst. exact Hy.
  - intros H. exists x. split; [exact H|apply String.eqb_refl].
Qed.

Lemma In_set_add (s : list string) (x : string) : In x (set_add s x).
Proof.
  unfold set_add. destruct (set_has s x) eqn:E.
  - apply set_has_In. exact E.
  - apply in_or_app. right. left. reflexivity.
Qed.

Lemma In_set_add_iff (s : list string) (x y : string) : In y (set_add s x) <-> y = x \/ In y s.
Proof.
  unfold set_add. destruct (set_has s x) eqn:E.
  - apply set_has_In in E. split; [auto|]. intros [->|H]; assumption.
  - rewrite in_app_iff. simpl. split.
    + intros [H|[H|[]]]; auto.
    + intros [H|H]; auto.
Qed.

Lemma In_insert_sorted (x y : string) (l : list string) :
  In y (insert_sorted x l) <-> y = x \/ In y l.
Proof.
  induction l as [|z l IH]; simpl.
  - split; intros [H|H]; auto; try contradiction; left; congruence.
  - destruct (String.compare x z); simpl; rewrite ?IH; intuition congruence.
Qed.

Lemma In_js_sort (l : list string) (y : string) : In y (js_sort l) <-> In y l.
Proof.
  induction l as [|x l IH]; simpl; [tauto|].
  rewrite In_insert_sorted, IH. split; intros [H|H]; auto.
Qed.

Lemma proto_not_missing : MISSING <> "__proto__".
Proof. discriminate. Qed.

(** With the sentinel in the vocabulary, a token that is not a property of
    [Object.prototype] gets its own position, or the sentinel's when unseen. *)
Lemma lookup_index_spec (vocab : list string) (t : string) :
  In MISSING vocab -> ~ In t object_prototype_keys ->
  exists k, lookup_index (build_map vocab) t = PIndex k /\
    nth_error vocab k = Some (if set_has vocab t then t else MISSING).
Proof.
  intros HM Ht.
  assert (Hp : t <> "__proto__").
  { intros E. apply Ht. rewrite E. unfold object_prototype_keys. simpl. tauto. }
  assert (Hk : existsb (String.eqb t) object_prototype_keys = false).
  { destruct (existsb (String.eqb t) object_prototype_keys) eqn:E; [|reflexivity].
    exfalso. apply Ht. apply (set_has_In object_prototype_keys t). exact E. }
  unfold lookup_index, obj_get.
  destruct (set_has vocab t) eqn:Hs.
  - apply set_has_In in Hs. destruct (build_map_present vocab t Hs Hp) as (k & E & N).
    rewrite E. exists k. auto.
  - assert (Hn : ~ In t vocab) by (intros Hin; apply set_has_In in Hin; congruence).
    rewrite build_map_absent by exact Hn. rewrite Hk.
    destruct (build_map_present vocab MISSING HM proto_not_missing) as (k & E & N).
    rewrite E. exists k. auto.
Qed.

(** *** The vocabularies and maps of a trained artifact *)

Lemma aset_keys_In {A} (o : list (string * A)) (k : string) (v : A) (n : string) :
  In n (map fst (aset o k v)) -> n = k \/ In n (map fst o).
Proof.
  induction o as [|[k0 v0] o IH]; simpl; intros H.
  - destruct H as [H|[]]. auto.
  - destruct (String.eqb k k0); simpl in H; destruct H as [H|H]; auto.
    apply IH in H as [H|H]; auto.
Qed.

Lemma aset_NoDup {A} (o : list (string * A)) (k : string) (v : A) :
  NoDup (map fst o) -> NoDup (map fst (aset o k v)).
Proof.
  induction o as [|[k0 v0] o IH]; simpl; intros H.
  - constructor; [intros []|constructor].
  - inversion H as [|? ? Hn Hnd]; subst.
    destruct (String.eqb_spec k k0) as [->|Hne]; simpl; constructor; auto.
    intros Hin. apply aset_keys_In in Hin as [Hin|Hin]; [congruence|contradiction].
Qed.

Lemma aget_notin {A} (o : list (string * A)) (n : string) :
  ~ In n (map fst o) -> aget o n = None.
Proof.
  induction o as [|[k v] o IH]; simpl; intros H; [reflexivity|].
  destruct (String.eqb_spec n k) as [->|]; [tauto|]. apply IH. tauto.
Qed.

Lemma infer_index_fold (L : list (string * list string)) : forall (m : list (string * tokmap)) n,
  NoDup (map fst L) ->
  aget (fold_left (fun o '(feat, vocab) => aset o feat (build_map vocab)) L m) n =
  match aget L n with Some v => Some (build_map v) | None => aget m n end.
Proof.
  induction L as [|[f v] L IH]; intros m n Hnd; simpl; [reflexivity|].
  inversion Hnd as [|? ? Hf Hnd']; subst.
  rewrite IH by exact Hnd'. rewrite aget_aset.
  destruct (String.eqb_spec n f) as [->|Hne].
  - rewrite aget_notin by exact Hf. reflexivity.
  - destruct (aget L n); reflexivity.
Qed.

Lemma finalize_maps (names : list string) (sIdx : list nat)
    (sets : list (string * list string)) : forall vbf ibf,
  NoDup (map fst vbf) ->
  (forall n v, aget vbf n = Some v -> aget ibf n = Some (build_map v) /\ In MISSING v) ->
  let r := fold_left (fun '(vbf, ibf) i =>
               let key := feature_name names i in
               let s := vocab_of sets key in
               let s' := if set_has s MISSING then s else set_add s MISSING in
               let vocab := js_sort s' in
               (aset vbf key vocab, aset ibf key (build_map vocab)))
            sIdx (vbf, ibf) in
  NoDup (map fst (fst r)) /\
  (forall n v, aget (fst r) n = Some v -> aget (snd r) n = Some (build_map v) /\ In MISSING v) /\
  (forall n, aget vbf n <> None -> aget (fst r) n <> None) /\
  (forall i, In i sIdx -> aget (fst r) (feature_name names i) <> None).
Proof.
  induction sIdx as [|i sIdx IH]; intros vbf ibf Hnd Hm; simpl.
  - split; [exact Hnd|split; [exact Hm|split; [auto|intros i []]]].
  - set (key := feature_name names i).
    set (s' := if set_has (vocab_of sets key) MISSING then vocab_of sets key
               else set_add (vocab_of sets key) MISSING).
    assert (HM : In MISSING (js_sort s')).
    { apply In_js_sort. unfold s'.
      destruct (set_has (vocab_of sets key) MISSING) eqn:E.
      - apply set_has_In. exact E.
      - apply In_set_add. }
    destruct (IH (aset vbf key (js_sort s')) (aset ibf key (build_map (js_sort s'))))
      as (H1 & H2 & H3 & H4).
    + apply aset_NoDup. exact Hnd.
    + intros n v Hn. rewrite aget_aset in Hn. rewrite aget_aset.
      destruct (String.eqb n key); [injection Hn as <-; auto|apply Hm; exact Hn].
    + split; [exact H1|split; [exact H2|split]].
      * intros n Hn. apply H3. rewrite aget_aset. destruct (String.eqb n key); congruence.
      * intros j [<-|Hj]; [|apply H4; exact Hj].
        apply H3. rewrite aget_aset, String.eqb_refl. discriminate.
Qed.

Lemma trained_maps (nts : float -> string) (rows : list example) :
  let a := fst (train_preprocess nts rows) in
  let ibf := snd (train_preprocess nts rows) in
  NoDup (map fst (vocabByFeature a)) /\
  (forall n v, aget (vocabByFeature a) n = Some v ->
     aget ibf n = Some (build_map v) /\ In MISSING v) /\
  (forall i, In i (stringIndices a) ->
     aget (vocabByFeature a) (feature_name (featureNames a) i) <> None).
Proof.
  unfold train_preprocess.
  pose proof (finalize_maps (schema_featureNames rows) (schema_stringIndices rows)
    (vocab_pass nts (schema_featureNames rows) (schema_stringIndices rows) rows) [] []
    (NoDup_nil _)) as Hf.
  unfold finalize_vocab.
  destruct (fold_left _ (schema_stringIndices rows) ([], [])) as [vbf ibf].
  simpl in Hf. destruct Hf as (H1 & H2 & _ & H4).
  - intros n v H. discriminate H.
  - destruct (layout _ _ _ _) as [offs td]. simpl.
    split; [exact H1|split; [exact H2|exact H4]].
Qed.

Lemma infer_index_trained (nts : float -> string) (rows : list example) (n : string) (v : list string) :
  let a := fst (train_preprocess nts rows) in
  aget (vocabByFeature a) n = Some v -> aget (infer_index a) n = Some (build_map v).
Proof.
  intros a Hv. destruct (trained_maps nts rows) as (Hnd & _ & _). fold a in Hnd.
  unfold infer_index. rewrite infer_index_fold by exact Hnd. rewrite Hv. reflexivity.
Qed.

(** *** Which cells the one-hot passes set *)

Lemma train_onehot_cells (nts : float -> string) (a : artifact) (ibf : list (string * tokmap))
    (x : row) (sIdx : list nat) : forall vec vec',
  (forall n o s, aget (oneHotOffsets a) n = Some (o, s) -> o + s <= List.length vec) ->
  train_onehot nts a ibf x sIdx vec = Some vec' ->
  forall p, p < List.length vec ->
  nth_error vec' p =
  if targets_hit (train_target nts a ibf x) sIdx p then Some (Num fone) else nth_error vec p.
Proof.
  unfold targets_hit.
  induction sIdx as [|i sIdx IH]; intros vec vec' Hb E p Hp; simpl in E |- *.
  - injection E as <-. reflexivity.
  - destruct (aget (oneHotOffsets a) (feature_name (featureNames a) i)) as [[o s]|] eqn:Ho;
      [|discriminate].
    destruct (aget ibf (feature_name (featureNames a) i)) as [map|] eqn:Hi; [|discriminate].
    assert (Ht : train_target nts a ibf x i =
      match lookup_index map (token nts (get x (feature_name (featureNames a) i))) with
      | PIndex n => if Nat.ltb n s then Some (o + n) else None
      | _ => None
      end) by (unfold train_target; rewrite Ho, Hi; reflexivity).
    rewrite Ht.
    destruct (lookup_index map (token nts (get x (feature_name (featureNames a) i)))) as [|n|];
      try (apply IH; assumption).
    destruct (Nat.ltb_spec n s) as [Hns|Hns]; [|apply IH; assumption].
    pose proof (Hb _ _ _ Ho) as Hos.
    assert (Hl : List.length (js_set vec (o + n) (Num fone)) = List.length vec)
      by (apply js_set_length; lia).
    rewrite (IH (js_set vec (o + n) (Num fone)) vec'); [| rewrite Hl; exact Hb | exact E | lia].
    destruct (Nat.eqb_spec (o + n) p) as [<-|Hne]; simpl.
    + rewrite js_set_same by lia. destruct (existsb _ sIdx); reflexivity.
    + rewrite js_set_other by lia. reflexivity.
Qed.

Lemma infer_onehot_cells (nts : float -> string) (a : artifact) (ibf : list (string * tokmap))
    (x : row) (sIdx : list nat) : forall vec,
  (forall n o s, aget (oneHotOffsets a) n = Some (o, s) -> o + s <= List.length vec) ->
  forall p, p < List.length vec ->
  nth_error (infer_onehot nts a ibf x sIdx vec) p =
  if targets_hit (infer_target nts a ibf x) sIdx p then Some (Num fone) else nth_error vec p.
Proof.
  unfold targets_hit.
  induction sIdx as [|i sIdx IH]; intros vec Hb p Hp; simpl.
  - reflexivity.
  - destruct (aget (oneHotOffsets a) (feature_name (featureNames a) i)) as [[o s]|] eqn:Ho.
    2:{ assert (Ht : infer_target nts a ibf x i = None)
          by (unfold infer_target; rewrite Ho; reflexivity).
        rewrite Ht. apply IH; assumption. }
    assert (Ht : infer_target nts a ibf x i =
      match match aget ibf (feature_name (featureNames a) i) with
            | Some map => lookup_index map (token nts (get x (feature_name (featureNames a) i)))
            | None => PUndefined
            end with
      | PIndex n => if Nat.ltb n s then Some (o + n) else None
      | _ => None
      end) by (unfold infer_target; rewrite Ho; reflexivity).
    rewrite Ht.
    destruct (match aget ibf (feature_name (featureNames a) i) with
              | Some map => lookup_index map (token nts (get x (feature_name (featureNames a) i)))
              | None => PUndefined
              end) as [|n|];
      try (apply IH; assumption).
    destruct (Nat.ltb_spec n s) as [Hns|Hns]; [|apply IH; assumption].
    pose proof (Hb _ _ _ Ho) as Hos.
    assert (Hl : List.length (js_set vec (o + n) (Num fone)) = List.length vec)
      by (apply js_set_length; lia).
    rewrite (IH (js_set vec (o + n) (Num fone))); [| rewrite Hl; exact Hb | lia].
    destruct (Nat.eqb_spec (o + n) p) as [<-|Hne]; simpl.
    + rewrite js_set_same by lia. destruct (existsb _ sIdx); reflexivity.
    + rewrite js_set_other by lia. reflexivity.
Qed.

(** *** Blocks of distinct features do not overlap *)

Lemma layout_disjoint_inv (names : list string) (vbf : list (string * list string))
    (sIdx : list nat) : forall (offs : offsets) (td : nat),
  (forall n o s, aget offs n = Some (o, s) -> o + s <= td /\ s = List.length (vocab_of vbf n)) ->
  (forall n1 n2 o1 s1 o2 s2, n1 <> n2 ->
     aget offs n1 = Some (o1, s1) -> aget offs n2 = Some (o2, s2) ->
     o1 + s1 <= o2 \/ o2 + s2 <= o1) ->
  let r := fold_left (fun '(offs, td) i =>
               let name := feature_name names i in
               let size := List.length (vocab_of vbf name) in
               (aset offs name (td, size), td + size))
            sIdx (offs, td) in
  (forall n o s, aget (fst r) n = Some (o, s) -> s = List.length (vocab_of vbf n)) /\
  (forall n1 n2 o1 s1 o2 s2, n1 <> n2 ->
     aget (fst r) n1 = Some (o1, s1) -> aget (fst r) n2 = Some (o2, s2) ->
     o1 + s1 <= o2 \/ o2 + s2 <= o1).
Proof.
  induction sIdx as [|i sIdx IH]; intros offs td Hb Hd; simpl.
  - split; [intros n o s H; apply (Hb n o s H)|exact Hd].
  - set (name := feature_name names i).
    set (size := List.length (vocab_of vbf name)).
    apply IH.
    + intros n o s Hn. rewrite aget_aset in Hn.
      destruct (String.eqb_spec n name) as [->|].
      * injection Hn as <- <-. split; [lia|reflexivity].
      * apply Hb in Hn. destruct Hn as [Hn Hs]. split; [lia|exact Hs].
    + intros n1 n2 o1 s1 o2 s2 Hne H1 H2. rewrite aget_aset in H1. rewrite aget_aset in H2.
      destruct (String.eqb_spec n1 name) as [->|Hn1], (String.eqb_spec n2 name) as [->|Hn2].
      * contradiction.
      * injection H1 as <- <-. apply Hb in H2. destruct H2 as [H2 _]. lia.
      * injection H2 as <- <-. apply Hb in H1. destruct H1 as [H1 _]. lia.
      * exact (Hd n1 n2 o1 s1 o2 s2 Hne H1 H2).
Qed.

Lemma trained_blocks (nts : float -> string) (rows : list example) :
  let a := fst (train_preprocess nts rows) in
  (forall n o s, aget (oneHotOffsets a) n = Some (o, s) ->
     s = List.length (vocab_of (vocabByFeature a) n)) /\
  (forall n1 n2 o1 s1 o2 s2, n1 <> n2 ->
     aget (oneHotOffsets a) n1 = Some (o1, s1) -> aget (oneHotOffsets a) n2 = Some (o2, s2) ->
     o1 + s1 <= o2 \/ o2 + s2 <= o1).
Proof.
  unfold train_preprocess.
  destruct (finalize_vocab _ _ _) as [vbf ibf].
  pose proof (layout_disjoint_inv (schema_featureNames rows) vbf (schema_stringIndices rows)
                [] (List.length (schema_numericIndices rows))) as Hl.
  destruct Hl as [H1 H2].
  - intros n o s H. discriminate H.
  - intros n1 n2 o1 s1 o2 s2 _ H. discriminate H.
  - change (fold_left _ (schema_stringIndices rows) ([], List.length (schema_numericIndices rows)))
      with (layout (schema_featureNames rows) vbf (schema_stringIndices rows)
              (List.length (schema_numericIndices rows))) in H1, H2.
    destruct (layout _ _ _ _) as [offs td]. simpl in *. split; assumption.
Qed.

(** *** Exactly one cell per block *)

Lemma not_proto_b (t : string) :
  existsb (String.eqb t) object_prototype_keys = false -> ~ In t object_prototype_keys.
Proof.
  intros E Hin. assert (Hb : existsb (String.eqb t) object_prototype_keys = true)
    by (apply existsb_exists; exists t; split; [exact Hin | apply String.eqb_refl]).
  congruence.
Qed.

Lemma one_hot_from_targets (tok : value -> string) (a : artifact) (x : row)
    (target : nat -> option nat) (vec0 vec : list cell) :
  let name := feature_name (featureNames a) in
  (forall n o s, aget (oneHotOffsets a) n = Some (o, s) -> o + s <= List.length vec0) ->
  (forall p, p < List.length vec0 ->
     nth_error vec p =
     if targets_hit target (stringIndices a) p then Some (Num fone) else nth_error vec0 p) ->
  (forall n o s, aget (oneHotOffsets a) n = Some (o, s) ->
     forall j, j < s -> nth_error vec0 (o + j) = Some (Num fzero)) ->
  (forall n1 n2 o1 s1 o2 s2, n1 <> n2 ->
     aget (oneHotOffsets a) n1 = Some (o1, s1) -> aget (oneHotOffsets a) n2 = Some (o2, s2) ->
     o1 + s1 <= o2 \/ o2 + s2 <= o1) ->
  (forall g q, target g = Some q ->
     exists o s, aget (oneHotOffsets a) (name g) = Some (o, s) /\ o <= q < o + s) ->
  (forall g i, name g = name i -> target g = target i) ->
  (forall i o s, In i (stringIndices a) -> aget (oneHotOffsets a) (name i) = Some (o, s) ->
     let vocab := vocab_of (vocabByFeature a) (name i) in
     let t := tok (get x (name i)) in
     exists k, k < s /\ nth_error vocab k = Some (if set_has vocab t then t else MISSING) /\
       target i = Some (o + k)) ->
  one_hot_ok tok a x vec.
Proof.
  intros name Hb Hcells Hz Hdisj Hrange Hsame Htgt i o s Hi Ho. cbv zeta.
  destruct (Htgt i o s Hi Ho) as [k [Hk [Hv Ht]]].
  pose proof (Hb _ _ _ Ho) as Hos.
  exists k. split; [exact Hk|]. split; [exact Hv|]. split.
  - rewrite Hcells by lia.
    replace (targets_hit target (stringIndices a) (o + k)) with true; [reflexivity|].
    symmetry. unfold targets_hit. apply existsb_exists. exists i.
    split; [exact Hi|]. rewrite Ht. apply Nat.eqb_refl.
  - intros j Hj Hjk. rewrite Hcells by lia.
    destruct (targets_hit target (stringIndices a) (o + j)) eqn:Eh; [|exact (Hz _ _ _ Ho j Hj)].
    exfalso. unfold targets_hit in Eh. apply existsb_exists in Eh as [g [_ Eg]].
    destruct (target g) as [q|] eqn:Etg; [|discriminate].
    apply Nat.eqb_eq in Eg. subst q.
    destruct (Hrange g _ Etg) as [og [sg [Hog Hq]]].
    destruct (String.eqb_spec (name g) (name i)) as [Hn|Hn].
    + rewrite (Hsame g i Hn), Ht in Etg. injection Etg. lia.
    + destruct (Hdisj _ _ _ _ _ _ Hn Hog Ho); lia.
Qed.

Lemma vocab_of_some (vbf : list (string * list string)) (n : string) (v : list string) :
  aget vbf n = Some v -> vocab_of vbf n = v.
Proof. intros H. unfold vocab_of. rewrite H. reflexivity. Qed.

(** The one-hot blocks of the trained artifact, for both encoders: the
    feature [i]'s block has the cell of its token's vocabulary position. *)
Lemma trained_targets (nts : float -> string) (rows : list example) (x : row) (i : nat) (o s : nat) :
  let a := fst (train_preprocess nts rows) in
  let ibf := snd (train_preprocess nts rows) in
  let name := feature_name (featureNames a) i in
  In i (stringIndices a) ->
  ~ In (token nts (get x name)) object_prototype_keys ->
  aget (oneHotOffsets a) name = Some (o, s) ->
  let vocab := vocab_of (vocabByFeature a) name in
  let t := token nts (get x name) in
  exists k, k < s /\ nth_error vocab k = Some (if set_has vocab t then t else MISSING) /\
    train_target nts a ibf x i = Some (o + k) /\
    infer_target nts a (infer_index a) x i = Some (o + k).
Proof.
  intros a ibf name Hi Htok Ho vocab t.
  destruct (trained_maps nts rows) as [_ [Hvm Hvk]].
  destruct (trained_blocks nts rows) as [Hsz _].
  fold a in Hvm, Hvk, Hsz. fold ibf in Hvm.
  destruct (aget (vocabByFeature a) name) as [v|] eqn:Hv; [|exfalso; exact (Hvk i Hi Hv)].
  destruct (Hvm name v Hv) as [Hibf HM].
  pose proof (infer_index_trained nts rows name v Hv) as Hinf. fold a in Hinf.
  destruct (lookup_index_spec v t HM Htok) as [k [Hlk Hk]].
  assert (Hvoc : vocab = v) by (apply vocab_of_some; exact Hv).
  pose proof (Hsz _ _ _ Ho) as Hs. fold name in Hs. fold vocab in Hs. rewrite Hvoc in Hs.
  assert (Hks : k < s) by (subst s; apply nth_error_Some; congruence).
  exists k. split; [exact Hks|]. split; [rewrite Hvoc; exact Hk|].
  assert (Hlt : Nat.ltb k s = true) by (apply Nat.ltb_lt; exact Hks).
  split.
  - unfold train_target. fold name. rewrite Ho, Hibf. fold t. rewrite Hlk, Hlt. reflexivity.
  - unfold infer_target. fold name. rewrite Ho, Hinf. fold t. rewrite Hlk, Hlt. reflexivity.
Qed.

Lemma train_target_range (nts : float -> string) (a : artifact) (ibf : list (string * tokmap))
    (x : row) (g q : nat) :
  train_target nts a ibf x g = Some q ->
  exists o s, aget (oneHotOffsets a) (feature_name (featureNames a) g) = Some (o, s) /\
    o <= q < o + s.
Proof.
  unfold train_target.
  destruct (aget (oneHotOffsets a) (feature_name (featureNames a) g)) as [[o s]|]; [|discriminate].
  destruct (aget ibf (feature_name (featureNames a) g)) as [map|]; [|discriminate].
  destruct (lookup_index _ _) as [|n|]; try discriminate.
  destruct (Nat.ltb_spec n s); [|discriminate].
  intros E. injection E as <-. exists o, s. split; [reflexivity|lia].
Qed.

Lemma infer_target_range (nts : float -> string) (a : artifact) (ibf : list (string * tokmap))
    (x : row) (g q : nat) :
  infer_target nts a ibf x g = Some q ->
  exists o s, aget (oneHotOffsets a) (feature_name (featureNames a) g) = Some (o, s) /\
    o <= q < o + s.
Proof.
  unfold infer_target.
  destruct (aget (oneHotOffsets a) (feature_name (featureNames a) g)) as [[o s]|]; [|discriminate].
  destruct (match aget ibf (feature_name (featureNames a) g) with
            | Some map => lookup_index map (token nts (get x (feature_name (featureNames a) g)))
            | None => PUndefined
            end) as [|n|]; try discriminate.
  destruct (Nat.ltb_spec n s); [|discriminate].
  intros E. injection E as <-. exists o, s. split; [reflexivity|lia].
Qed.

(** Extra property X1: when no token of the record is a property every
    object inherits (train.js, lines 216-224; prediction.js, lines 54-64),
    both encoders of a trained artifact put, in the block of every
    categorical feature, a 1 at the vocabulary position of the record's
    token (of the sentinel [__MISSING__] if the token was not seen in
    training) and a 0 everywhere else in the block. *)
Theorem onehot_block_single_cell (nts : float -> string) (rows : list example) (x : row) :
  let a := fst (train_preprocess nts rows) in
  let ibf := snd (train_preprocess nts rows) in
  (forall i, In i (stringIndices a) ->
     ~ In (token nts (get x (feature_name (featureNames a) i))) object_prototype_keys) ->
  (exists vec, train_encode nts a ibf x = Some vec /\ one_hot_ok (token nts) a x vec) /\
  one_hot_ok (token nts) a x (encodeRow nts a x).
Proof.
  intros a ibf Htok.
  destruct (trained_shape nts rows) as [Hlo [Hb _]]. fold a in Hlo, Hb.
  destruct (trained_blocks nts rows) as [_ Hdisj]. fold a in Hdisj.
  split.
  - set (vec0 := train_numeric a x (zeros (totalDim a))).
    assert (Hl0 : List.length vec0 = totalDim a).
    { unfold vec0. rewrite train_numeric_length; rewrite zeros_length; [reflexivity|exact Hlo]. }
    destruct (train_encode_shape nts rows x) as [vec [E _]]. fold a ibf in E.
    exists vec. split; [exact E|].
    apply (one_hot_from_targets (token nts) a x (train_target nts a ibf x) vec0 vec).
    + intros n o s H. rewrite Hl0. apply (Hb n o s H).
    + intros p Hp. apply (train_onehot_cells nts a ibf x (stringIndices a) vec0 vec);
        [| exact E | exact Hp].
      intros n o s H. rewrite Hl0. apply (Hb n o s H).
    + intros n o s H j Hj. destruct (Hb n o s H) as [H1 H2]. unfold vec0.
      rewrite train_numeric_high; [apply zeros_nth; lia | lia | rewrite zeros_length; lia].
    + exact Hdisj.
    + intros g q. apply train_target_range.
    + intros g i Hn. unfold train_target. rewrite Hn. reflexivity.
    + intros i o s Hi Ho.
      destruct (trained_targets nts rows x i o s Hi (Htok i Hi) Ho) as [k [Hk [Hv [Ht _]]]].
      exists k. split; [exact Hk|]. split; [exact Hv|exact Ht].
  - set (vec0 := infer_numeric a x (zeros (totalDim a))).
    assert (Hl0 : List.length vec0 = totalDim a).
    { unfold vec0. rewrite infer_numeric_length; rewrite zeros_length; [reflexivity|exact Hlo]. }
    apply (one_hot_from_targets (token nts) a x (infer_target nts a (infer_index a) x) vec0).
    + intros n o s H. rewrite Hl0. apply (Hb n o s H).
    + intros p Hp. apply (infer_onehot_cells nts a (infer_index a) x (stringIndices a) vec0);
        [| exact Hp].
      intros n o s H. rewrite Hl0. apply (Hb n o s H).
    + intros n o s H j Hj. destruct (Hb n o s H) as [H1 H2]. unfold vec0.
      rewrite infer_numeric_high; [apply zeros_nth; lia | lia | rewrite zeros_length; lia].
    + exact Hdisj.
    + intros g q. apply infer_target_range.
    + intros g i Hn. unfold infer_target. rewrite Hn. reflexivity.
    + intros i o s Hi Ho.
      destruct (trained_targets nts rows x i o s Hi (Htok i Hi) Ho) as [k [Hk [Hv [_ Ht]]]].
      exists k. split; [exact Hk|]. split; [exact Hv|exact Ht].
Qed.

(** Witness: the rows of [rows_missing] and the record
    [{Age: 5, HomePlanet: "Venus"}], whose token was not seen in training. *)
Lemma onehot_block_single_cell_witness :
  let a := fst (train_preprocess no_number_to_string rows_missing) in
  let ibf := snd (train_preprocess no_number_to_string rows_missing) in
  let x := [("Age", VNum (float_of_Z 5)); ("HomePlanet", VStr "Venus")] in
  (forall i, In i (stringIndices a) ->
     ~ In (token no_number_to_string (get x (feature_name (featureNames a) i)))
          object_prototype_keys) /\
  (exists vec, train_encode no_number_to_string a ibf x = Some vec /\
     one_hot_ok (token no_number_to_string) a x vec) /\
  one_hot_ok (token no_number_to_string) a x (encodeRow no_number_to_string a x).
Proof.
  intros a ibf x.
  assert (Htok : forall i, In i (stringIndices a) ->
     ~ In (token no_number_to_string (get x (feature_name (featureNames a) i)))
          object_prototype_keys).
  { intros i Hi. vm_compute in Hi. destruct Hi as [<-|[]].
    apply not_proto_b. vm_compute. reflexivity. }
  split; [exact Htok|].
  exact (onehot_block_single_cell no_number_to_string rows_missing x Htok).
Defined.

(** ** The schema: every column is numeric or categorical, once *)

Lemma filter_negb_Permutation {A} (f : A -> bool) (l : list A) :
  Permutation (filter f l ++ filter (fun x => negb (f x)) l) l.
Proof.
  induction l as [|x l IH]; simpl; [constructor|].
  destruct (f x); simpl.
  - constructor. exact IH.
  - apply Permutation_sym, Permutation_cons_app, Permutation_sym. exact IH.
Qed.

(** Extra property X2 (train.js, lines 26-32): the first row decides the
    schema; [numericIndices] and [stringIndices] are increasing, together
    they hold every column index exactly once, and a column is numeric
    exactly when the first row's value there is a number. *)
Theorem schema_partition (rows : list example) :
  let names := schema_featureNames rows in
  let nIdx := schema_numericIndices rows in
  let sIdx := schema_stringIndices rows in
  Permutation (nIdx ++ sIdx) (seq 0 (List.length names)) /\
  StronglySorted lt nIdx /\ StronglySorted lt sIdx /\
  (forall i, In i nIdx <->
     i < List.length names /\ is_number (get (first_xs rows) (feature_name names i)) = true) /\
  (forall i, In i sIdx <->
     i < List.length names /\ is_number (get (first_xs rows) (feature_name names i)) = false).
Proof.
  intros names nIdx sIdx.
  split; [apply filter_negb_Permutation|].
  split; [apply StronglySorted_filter, StronglySorted_seq|].
  split; [apply StronglySorted_filter, StronglySorted_seq|].
  split; intros i; unfold nIdx, sIdx, schema_numericIndices, schema_stringIndices;
    fold names; rewrite filter_In, in_seq.
  - split; intros [H1 H2]; split; try lia; exact H2.
  - rewrite negb_true_iff. split; intros [H1 H2]; split; try lia; exact H2.
Qed.

(** *** Vocabularies of a trained artifact *)

Lemma vocab_of_aset (o : list (string * list string)) (k n : string) (v : list string) :
  vocab_of (aset o k v) n = if String.eqb n k then v else vocab_of o n.
Proof. unfold vocab_of. rewrite aget_aset. destruct (String.eqb n k); reflexivity. Qed.

Lemma vocab_init_empty (names : list string) (sIdx : list nat) (n : string) :
  vocab_of (vocab_init names sIdx) n = [].
Proof.
  unfold vocab_init.
  assert (H : forall o, (forall n, vocab_of o n = []) ->
            vocab_of (fold_left (fun o i => aset o (feature_name names i) []) sIdx o) n = []).
  { induction sIdx as [|i sIdx IH]; intros o Ho; simpl; [apply Ho|].
    apply IH. intros m. rewrite vocab_of_aset. destruct (String.eqb m _); auto. }
  apply H. intros m. reflexivity.
Qed.

Lemma vocab_row_In (nts : float -> string) (names : list string) (sIdx : list nat) (x : row) :
  forall o n t,
  In t (vocab_of (vocab_row nts names sIdx x o) n) <->
  In t (vocab_of o n) \/ (In n (map (feature_name names) sIdx) /\ t = token nts (get x n)).
Proof.
  unfold vocab_row.
  induction sIdx as [|i sIdx IH]; intros o n t; simpl; [tauto|].
  rewrite IH, vocab_of_aset.
  destruct (String.eqb_spec n (feature_name names i)) as [->|Hne].
  - rewrite In_set_add_iff. intuition.
  - intuition congruence.
Qed.

Lemma vocab_row_NoDup (nts : float -> string) (names : list string) (sIdx : list nat) (x : row) :
  forall o, (forall n, NoDup (vocab_of o n)) ->
  forall n, NoDup (vocab_of (vocab_row nts names sIdx x o) n).
Proof.
  unfold vocab_row.
  induction sIdx as [|i sIdx IH]; intros o Ho; simpl; [exact Ho|].
  apply IH. intros n. rewrite vocab_of_aset.
  destruct (String.eqb n _); [|apply Ho].
  unfold set_add. destruct (set_has _ _) eqn:E; [apply Ho|].
  apply NoDup_app; [apply Ho | constructor; [intros []|constructor] |].
  intros y Hy [<-|[]]. apply Bool.not_true_iff_false in E. apply E, set_has_In. exact Hy.
Qed.

Lemma vocab_pass_In (nts : float -> string) (names : list string) (sIdx : list nat)
    (rows : list example) (n t : string) :
  In t (vocab_of (vocab_pass nts names sIdx rows) n) <->
  In n (map (feature_name names) sIdx) /\ exists e, In e rows /\ token nts (get (xs e) n) = t.
Proof.
  unfold vocab_pass.
  assert (H : forall o,
    In t (vocab_of (fold_left (fun o e => vocab_row nts names sIdx (xs e) o) rows o) n) <->
    In t (vocab_of o n) \/
    (In n (map (feature_name names) sIdx) /\
     exists e, In e rows /\ token nts (get (xs e) n) = t)).
  { induction rows as [|e rows IH]; intros o; simpl.
    - split; [tauto|]. intros [H|[_ (e & [] & _)]]. exact H.
    - rewrite IH, vocab_row_In. split.
      + intros [[H|[Hn Ht]]|[Hn (e' & He' & Ht)]]; auto.
        * right. split; [exact Hn|]. exists e. auto.
        * right. split; [exact Hn|]. exists e'. auto.
      + intros [H|[Hn (e' & [<-|He'] & Ht)]]; auto.
        right. split; [exact Hn|]. exists e'. auto. }
  rewrite H, vocab_init_empty. simpl. tauto.
Qed.

Lemma vocab_pass_NoDup (nts : float -> string) (names : list string) (sIdx : list nat)
    (rows : list example) (n : string) :
  NoDup (vocab_of (vocab_pass nts names sIdx rows) n).
Proof.
  unfold vocab_pass. revert n.
  assert (H : forall o, (forall n, NoDup (vocab_of o n)) ->
    forall n, NoDup (vocab_of (fold_left (fun o e => vocab_row nts names sIdx (xs e) o) rows o) n)).
  { induction rows as [|e rows IH]; intros o Ho; simpl; [exact Ho|].
    apply IH, vocab_row_NoDup, Ho. }
  apply H. intros n. rewrite vocab_init_empty. constructor.
Qed.

Lemma finalize_vbf (names : list string) (sIdx : list nat)
    (sets : list (string * list string)) (n : string) : forall vbf ibf,
  In n (map (feature_name names) sIdx) ->
  let r := fold_left (fun '(vbf, ibf) i =>
               let key := feature_name names i in
               let s := vocab_of sets key in
               let s' := if set_has s MISSING then s else set_add s MISSING in
               let vocab := js_sort s' in
               (aset vbf key vocab, aset ibf key (build_map vocab)))
            sIdx (vbf, ibf) in
  let s := vocab_of sets n in
  aget (fst r) n = Some (js_sort (if set_has s MISSING then s else set_add s MISSING)).
Proof.
  assert (Hout : forall sIdx vbf ibf, ~ In n (map (feature_name names) sIdx) ->
    aget (fst (fold_left (fun '(vbf, ibf) i =>
               let key := feature_name names i in
               let s := vocab_of sets key in
               let s' := if set_has s MISSING then s else set_add s MISSING in
               let vocab := js_sort s' in
               (aset vbf key vocab, aset ibf key (build_map vocab)))
            sIdx (vbf, ibf))) n = aget vbf n).
  { induction sIdx0 as [|i sIdx0 IH]; intros vbf ibf Hn; simpl; [reflexivity|].
    rewrite IH by (simpl in Hn; tauto). rewrite aget_aset.
    destruct (String.eqb_spec n (feature_name names i)) as [->|]; [|reflexivity].
    exfalso. apply Hn. left. reflexivity. }
  induction sIdx as [|i sIdx IH]; intros vbf ibf Hn; simpl in Hn |- *; [contradiction|].
  destruct (in_dec String.string_dec n (map (feature_name names) sIdx)) as [Hin|Hnin].
  - apply IH. exact Hin.
  - destruct Hn as [<-|Hn]; [|contradiction].
    rewrite Hout by exact Hnin. rewrite aget_aset, String.eqb_refl. reflexivity.
Qed.

Lemma insert_sorted_HdRel (x y : string) (l : list string) :
  str_le y x -> HdRel str_le y l -> HdRel str_le y (insert_sorted x l).
Proof.
  intros Hyx Hl. destruct l as [|z l]; simpl; [constructor; exact Hyx|].
  destruct (String.compare x z); constructor; auto; inversion Hl; auto.
Qed.

Lemma insert_sorted_Sorted (x : string) (l : list string) :
  Sorted str_le l -> Sorted str_le (insert_sorted x l).
Proof.
  induction 1 as [|z l Hs IH Hd]; simpl; [repeat constructor|].
  destruct (String.compare x z) eqn:E.
  - constructor; [constructor; auto|constructor]. unfold str_le. rewrite E. discriminate.
  - constructor; [constructor; auto|constructor]. unfold str_le. rewrite E. discriminate.
  - constructor; [exact IH|]. apply insert_sorted_HdRel; [|exact Hd].
    unfold str_le. rewrite String.compare_antisym, E. discriminate.
Qed.

Lemma js_sort_Sorted (l : list string) : Sorted str_le (js_sort l).
Proof. induction l as [|x l IH]; simpl; [constructor|]. apply insert_sorted_Sorted, IH. Qed.

Lemma insert_sorted_perm (x : string) (l : list string) : Permutation (insert_sorted x l) (x :: l).
Proof.
  induction l as [|z l IH]; simpl; [reflexivity|].
  destruct (String.compare x z); try reflexivity.
  rewrite IH. apply perm_swap.
Qed.

Lemma js_sort_perm (l : list string) : Permutation (js_sort l) l.
Proof.
  induction l as [|x l IH]; simpl; [reflexivity|].
  rewrite insert_sorted_perm. constructor. exact IH.
Qed.

Lemma Sorted_strict (l : list string) :
  Sorted str_le l -> NoDup l -> Sorted str_lt l.
Proof.
  induction 1 as [|x l Hs IH Hd]; intros Hnd; [constructor|].
  inversion Hnd as [|? ? Hx Hnd']; subst.
  constructor; [apply IH, Hnd'|].
  destruct Hd as [|y l' Hxy]; constructor.
  unfold str_le, str_lt in *.
  destruct (String.compare x y) eqn:E; try reflexivity; [|contradiction].
  apply String.compare_eq_iff in E. subst. exfalso. apply Hx. left. reflexivity.
Qed.

Lemma trained_vbf_eq (nts : float -> string) (rows : list example) :
  let a := fst (train_preprocess nts rows) in
  featureNames a = schema_featureNames rows /\
  stringIndices a = schema_stringIndices rows /\
  vocabByFeature a =
    fst (finalize_vocab (schema_featureNames rows) (schema_stringIndices rows)
           (vocab_pass nts (schema_featureNames rows) (schema_stringIndices rows) rows)).
Proof.
  unfold train_preprocess.
  destruct (finalize_vocab _ _ _) as [vbf ibf].
  destruct (layout _ _ _ _) as [offs td]. simpl. auto.
Qed.

(** Extra property X3 (train.js, lines 109-120 and 139-149): the
    vocabulary of every categorical feature of a trained artifact is in
    strictly increasing string order, has no duplicate, and holds exactly
    the sentinel [__MISSING__] and the tokens the column takes in the
    training rows. *)
Theorem trained_vocabulary (nts : float -> string) (rows : list example) (i : nat) :
  let a := fst (train_preprocess nts rows) in
  let name := feature_name (featureNames a) i in
  let vocab := vocab_of (vocabByFeature a) name in
  In i (stringIndices a) ->
  Sorted str_lt vocab /\ NoDup vocab /\
  (forall t, In t vocab <->
     t = MISSING \/ exists e, In e rows /\ token nts (get (xs e) name) = t).
Proof.
  intros a name vocab Hi.
  destruct (trained_vbf_eq nts rows) as (Hn & Hs & Hv). fold a in Hn, Hs, Hv.
  set (names := schema_featureNames rows) in *.
  set (sIdx := schema_stringIndices rows) in *.
  set (sets := vocab_pass nts names sIdx rows) in *.
  assert (Hin : In name (map (feature_name names) sIdx)).
  { unfold name. rewrite Hn. apply in_map. rewrite <- Hs. exact Hi. }
  assert (Hvoc : vocab = js_sort (if set_has (vocab_of sets name) MISSING then vocab_of sets name
                                  else set_add (vocab_of sets name) MISSING)).
  { unfold vocab. rewrite Hv. unfold finalize_vocab.
    apply vocab_of_some. exact (finalize_vbf names sIdx sets name [] [] Hin). }
  assert (Hnd : NoDup (if set_has (vocab_of sets name) MISSING then vocab_of sets name
                       else set_add (vocab_of sets name) MISSING)).
  { pose proof (vocab_pass_NoDup nts names sIdx rows name) as H. fold sets in H.
    destruct (set_has (vocab_of sets name) MISSING) eqn:E; [exact H|].
    unfold set_add. rewrite E.
    apply NoDup_app; [exact H | constructor; [intros []|constructor] |].
    intros y Hy [<-|[]]. apply Bool.not_true_iff_false in E. apply E, set_has_In. exact Hy. }
  assert (HndV : NoDup vocab).
  { rewrite Hvoc. eapply Permutation_NoDup; [symmetry; apply js_sort_perm|exact Hnd]. }
  split; [rewrite Hvoc; apply Sorted_strict; [apply js_sort_Sorted|rewrite <- Hvoc; exact HndV]|].
  split; [exact HndV|].
  intros t. rewrite Hvoc, In_js_sort.
  assert (Hset : In t (vocab_of sets name) <->
                 exists e, In e rows /\ token nts (get (xs e) name) = t).
  { unfold sets. rewrite vocab_pass_In. tauto. }
  destruct (set_has (vocab_of sets name) MISSING) eqn:E.
  - apply set_has_In in E. rewrite <- Hset. split; [auto|].
    intros [->|H]; assumption.
  - rewrite In_set_add_iff, <- Hset. reflexivity.
Qed.

(** *** The encoder of the earlier training script *)

Lemma onehot_agree (nts : float -> string) (a : artifact) (ibf ibf' : list (string * tokmap))
    (x : row) (sIdx : list nat) : forall vec,
  (forall i, In i sIdx ->
     aget (oneHotOffsets a) (feature_name (featureNames a) i) <> None /\
     aget ibf (feature_name (featureNames a) i) <> None /\
     aget ibf' (feature_name (featureNames a) i) = aget ibf (feature_name (featureNames a) i)) ->
  train_onehot nts a ibf x sIdx vec = Some (infer_onehot nts a ibf' x sIdx vec).
Proof.
  induction sIdx as [|i sIdx IH]; intros vec H; simpl; [reflexivity|].
  destruct (H i (or_introl eq_refl)) as (Ho & Hi & He).
  destruct (aget (oneHotOffsets a) (feature_name (featureNames a) i)) as [[o s]|];
    [|contradiction].
  destruct (aget ibf (feature_name (featureNames a) i)) as [map|]; [|contradiction].
  rewrite He. apply IH. intros j Hj. apply H. right. exact Hj.
Qed.

Lemma old_train_fields (nts : float -> string) (rows : list example) :
  let ao := fst (old_train_preprocess nts rows) in
  let a := fst (train_preprocess nts rows) in
  featureNames ao = featureNames a /\ stringIndices ao = stringIndices a /\
  vocabByFeature ao = vocabByFeature a /\ oneHotOffsets ao = oneHotOffsets a /\
  totalDim ao = totalDim a /\
  snd (old_train_preprocess nts rows) = snd (train_preprocess nts rows).
Proof.
  unfold old_train_preprocess, train_preprocess.
  destruct (finalize_vocab _ _ _) as [vbf ibf].
  destruct (layout _ _ _ _) as [offs td]. simpl. repeat split.
Qed.

(** Extra property X4 (src/unnamed/part_000, lines 141-176, and
    prediction.js, lines 22-27 and 43-67): the earlier training script,
    which imputes numeric values by the mean without standardising them,
    encodes every record exactly as [encodeRow] encodes it from the
    artifact that script computes: its training and inference encodings
    agree. *)
Theorem old_encoder_matches_encodeRow (nts : float -> string) (rows : list example) (x : row) :
  let ao := fst (old_train_preprocess nts rows) in
  let ibf := snd (old_train_preprocess nts rows) in
  old_encode nts ao ibf x = Some (encodeRow nts ao x).
Proof.
  intros ao ibf.
  destruct (old_train_fields nts rows) as (Hn & Hs & Hv & Ho & Ht & Hi). fold ao in Hn, Hs, Hv, Ho, Ht.
  destruct (trained_shape nts rows) as (_ & _ & Hk).
  destruct (trained_maps nts rows) as (_ & Hvm & Hvk).
  unfold old_encode, encodeRow. apply onehot_agree.
  intros i Hin. rewrite Hs in Hin. rewrite Hn, Ho. fold ibf in Hi. rewrite Hi.
  destruct (Hk i Hin) as [Hk1 Hk2]. split; [exact Hk1|]. split; [exact Hk2|].
  destruct (aget (vocabByFeature (fst (train_preprocess nts rows)))
              (feature_name (featureNames (fst (train_preprocess nts rows))) i)) as [v|] eqn:E;
    [|exfalso; exact (Hvk i Hin E)].
  destruct (Hvm _ _ E) as [Hb _]. rewrite Hb.
  unfold infer_index. rewrite Hv. fold (infer_index (fst (train_preprocess nts rows))).
  exact (infer_index_trained nts rows _ v E).
Qed.

(** *** The submission file *)

Lemma passenger_id_nullish (x : row) (pid : value) :
  passenger_id x = pid ->
  match Some pid with
  | Some VNull | Some VUndef | None => VStr EmptyString
  | Some v => v
  end = pid.
Proof.
  unfold passenger_id. intros <-. destruct (get x "PassengerId"); reflexivity.
Qed.

(** Extra property X5 (prediction.js, lines 72-77 and 109-118): when the
    model gives one probability per test row, the submission has a header
    line and then one line per test row, in order: the row's PassengerId
    (empty when it is null or undefined), a comma, and [True] exactly when
    the probability is at least 0.5, so [False] for a NaN probability. *)
Theorem submission_lines_rows (nts : float -> string) (testRows : list row)
    (probArray : list float)
    (Hlen : List.length probArray = List.length testRows) :
  let lines := submission_lines nts (map passenger_id testRows) (predictions_of probArray) in
  List.length lines = S (List.length testRows) /\
  nth_error lines 0 = Some "PassengerId,Transported" /\
  (forall i x p, nth_error testRows i = Some x -> nth_error probArray i = Some p ->
     nth_error lines (S i) =
     Some (String.append (js_String nts (passenger_id x))
             (String.append "," (if SFleb fhalf p then "True" else "False")))) /\
  (forall i x, nth_error testRows i = Some x -> nth_error probArray i = Some S754_nan ->
     nth_error lines (S i) = Some (String.append (js_String nts (passenger_id x)) ",False")).
Proof.
  intros lines.
  assert (Hline : forall i x p, nth_error testRows i = Some x -> nth_error probArray i = Some p ->
     nth_error lines (S i) =
     Some (String.append (js_String nts (passenger_id x))
             (String.append "," (if SFleb fhalf p then "True" else "False")))).
  { intros i x p Hx Hp.
    assert (Hi : i < List.length probArray) by (apply nth_error_Some; congruence).
    unfold lines, submission_lines, predictions_of. cbn [nth_error].
    rewrite nth_error_map, nth_error_seq, length_map.
    destruct (Nat.ltb_spec i (List.length probArray)) as [_|]; [|lia]. simpl.
    rewrite nth_error_map, Hx. cbn [option_map].
    rewrite (passenger_id_nullish x (passenger_id x) eq_refl).
    assert (Hn : nth i (map (fun p => SFleb fhalf p) probArray) false = SFleb fhalf p)
      by (apply nth_error_nth; rewrite nth_error_map, Hp; reflexivity).
    rewrite Hn.
    reflexivity. }
  split.
  - unfold lines, submission_lines, predictions_of. simpl.
    rewrite length_map, length_seq, length_map, Hlen. reflexivity.
  - split; [reflexivity|]. split; [exact Hline|].
    intros i x Hx Hp. rewrite (Hline i x S754_nan Hx Hp). reflexivity.
Qed.

(** *** The string indices of src/unnamed/part_001 *)

Lemma set_add_NoDup (s : list string) (x : string) : NoDup s -> NoDup (set_add s x).
Proof.
  intros H. unfold set_add. destruct (set_has s x) eqn:E; [exact H|].
  apply NoDup_app; [exact H | constructor; [intros []|constructor] |].
  intros y Hy [<-|[]]. apply Bool.not_true_iff_false in E. apply E, set_has_In. exact Hy.
Qed.

Lemma old_vocab_spec (tokens : list string) :
  NoDup (old_vocab tokens) /\ (forall t, In t (old_vocab tokens) <-> In t tokens).
Proof.
  unfold old_vocab.
  assert (H : forall s, NoDup s ->
    NoDup (fold_left set_add tokens s) /\
    (forall t, In t (fold_left set_add tokens s) <-> In t s \/ In t tokens)).
  { induction tokens as [|x tokens IH]; intros s Hs; simpl.
    - split; [exact Hs|]. intros t. tauto.
    - destruct (IH (set_add s x) (set_add_NoDup s x Hs)) as [H1 H2].
      split; [exact H1|]. intros t. rewrite H2, In_set_add_iff. intuition congruence. }
  destruct (H [] (NoDup_nil _)) as [H1 H2]. split; [exact H1|].
  intros t. rewrite H2. simpl. tauto.
Qed.

Lemma jm_fold_some (L : list (string * nat)) : forall m t k,
  aget (fold_left (fun m '(tok, i) => aset m tok i) L m) t = Some k ->
  aget m t = Some k \/ In (t, k) L.
Proof.
  induction L as [|[tok i] L IH]; intros m t k H; simpl in *; [auto|].
  apply IH in H as [H|H]; [|auto].
  rewrite aget_aset in H.
  destruct (String.eqb_spec t tok) as [->|]; [|auto].
  injection H as ->. auto.
Qed.

Lemma jm_fold_notin (L : list (string * nat)) : forall m t,
  ~ In t (map fst L) ->
  aget (fold_left (fun m '(tok, i) => aset m tok i) L m) t = aget m t.
Proof.
  induction L as [|[tok i] L IH]; intros m t Ht; simpl in *; [reflexivity|].
  rewrite IH by tauto. rewrite aget_aset.
  destruct (String.eqb_spec t tok) as [->|]; [|reflexivity].
  exfalso. apply Ht. left. reflexivity.
Qed.

Lemma jm_fold_present (L : list (string * nat)) : forall m t,
  In t (map fst L) ->
  aget (fold_left (fun m '(tok, i) => aset m tok i) L m) t <> None.
Proof.
  induction L as [|[tok i] L IH]; intros m t Ht; simpl in *; [contradiction|].
  destruct (in_dec String.string_dec t (map fst L)) as [Hin|Hnin]; [apply IH, Hin|].
  destruct Ht as [<-|Ht]; [|contradiction].
  rewrite jm_fold_notin by exact Hnin. rewrite aget_aset, String.eqb_refl. discriminate.
Qed.

(** Extra property X6 (src/unnamed/part_001, lines 59-63 and 115-132):
    whatever the order in which the string cells of the training rows
    reach the vocabulary sets, the vocabulary has no duplicate, every
    token it holds is encoded as its own position in it (whatever the
    token, since the index is a [Map]), and a token it does not hold is
    encoded as 0, the position of the first token added. *)
Theorem old_string_index (nts : float -> string) (trainVals : list value) (v : value) :
  let vocab := old_vocab (map (fun w => old_token (str_cell nts w)) trainVals) in
  let m := build_js_map vocab in
  let t := old_token (str_cell nts v) in
  NoDup vocab /\
  (In t vocab -> nth_error vocab (old_encode_cell m (str_cell nts v)) = Some t) /\
  (~ In t vocab -> old_encode_cell m (str_cell nts v) = 0).
Proof.
  intros vocab m t.
  destruct (old_vocab_spec (map (fun w => old_token (str_cell nts w)) trainVals)) as [Hnd _].
  fold vocab in Hnd. split; [exact Hnd|].
  unfold old_encode_cell. fold t. unfold m, build_js_map. split.
  - intros Hin.
    pose proof (jm_fold_present (combine vocab (seq 0 (List.length vocab))) [] t) as H.
    rewrite combine_seq_fst in H. specialize (H Hin).
    destruct (aget _ t) as [k|] eqn:E; [|contradiction].
    apply jm_fold_some in E as [E|E]; [discriminate|].
    apply combine_seq_nth_error in E as [_ E]. rewrite Nat.sub_0_r in E. exact E.
  - intros Hnin. rewrite jm_fold_notin; [reflexivity|].
    rewrite combine_seq_fst. exact Hnin.
Qed.

(** *** The tensor helpers of src/src/model.js *)

Lemma nth_error_combine_seq {A} (r : list A) : forall k c,
  nth_error (combine (seq k (List.length r)) r) c = option_map (fun x => (k + c, x)) (nth_error r c).
Proof.
  induction r as [|x r IH]; intros k c; simpl; [destruct c; reflexivity|].
  destruct c as [|c]; simpl; [rewrite Nat.add_0_r; reflexivity|].
  rewrite IH. destruct (nth_error r c); simpl; [rewrite Nat.add_succ_r; reflexivity|reflexivity].
Qed.

Lemma length_combine_seq {A} (r : list A) (k : nat) :
  List.length (combine (seq k (List.length r)) r) = List.length r.
Proof. rewrite length_combine, length_seq. lia. Qed.

(** Extra property X7 (src/src/model.js, lines 89-95): for one fill value
    per column, [imputeNaN] keeps the shape of the data, replaces every
    NaN by its column's fill value and leaves every other element,
    infinities included, unchanged; so with fill values that are not NaN
    its result holds no NaN. *)
Theorem imputeNaN_cells (data : list (list float)) (fillValues : list float)
    (Hshape : forall r, In r data -> List.length r = List.length fillValues) :
  let out := imputeNaN data fillValues in
  List.length out = List.length data /\
  (forall i r, nth_error data i = Some r ->
     exists r', nth_error out i = Some r' /\ List.length r' = List.length r /\
     forall c x, nth_error r c = Some x ->
       nth_error r' c = Some (if is_nan x then nth c fillValues S754_nan else x)) /\
  (forallb (fun f => negb (is_nan f)) fillValues = true ->
     forall r', In r' out -> forall y, In y r' -> is_nan y = false).
Proof.
  intros out.
  set (g := fun r : list float =>
              map (fun '(c, x) => if is_nan x then nth c fillValues S754_nan else x)
                  (combine (seq 0 (List.length r)) r)).
  assert (Hg : forall r c x, nth_error r c = Some x ->
             nth_error (g r) c = Some (if is_nan x then nth c fillValues S754_nan else x)).
  { intros r c x H. unfold g. rewrite nth_error_map, nth_error_combine_seq, H. reflexivity. }
  split; [apply length_map|]. split.
  - intros i r Hr. exists (g r). split; [unfold out, imputeNaN; rewrite nth_error_map, Hr; reflexivity|].
    split; [unfold g; rewrite length_map; apply length_combine_seq|exact (Hg r)].
  - intros Hf r' Hr' y Hy. unfold out, imputeNaN in Hr'. apply in_map_iff in Hr' as (r & <- & Hr).
    change (In y (g r)) in Hy.
    apply In_nth_error in Hy as [c Hc].
    assert (Hc' : c < List.length r).
    { assert (Hl : List.length (g r) = List.length r)
        by (unfold g; rewrite length_map; apply length_combine_seq).
      rewrite <- Hl. apply nth_error_Some. congruence. }
    destruct (nth_error r c) as [x|] eqn:Ex; [|apply nth_error_Some in Hc'; contradiction].
    rewrite (Hg r c x Ex) in Hc. injection Hc as <-.
    destruct (is_nan x) eqn:En; [|exact En].
    rewrite forallb_forall in Hf.
    assert (Hin : In (nth c fillValues S754_nan) fillValues)
      by (apply nth_In; rewrite <- (Hshape r Hr); exact Hc').
    specialize (Hf _ Hin). destruct (is_nan (nth c fillValues S754_nan)); [discriminate|reflexivity].
Qed.

Lemma column_map (g : list float -> list float) (rows : list (list float)) (c : nat) :
  (forall r, nth c (g r) S754_nan = nth c r S754_nan) -> column (map g rows) c = column rows c.
Proof. intros H. unfold column. rewrite map_map. apply map_ext. exact H. Qed.

Lemma nth_map_combine_seq (f : nat * float -> float) (r : list float) (c : nat) :
  (forall x, f (c, x) = x) ->
  nth c (map f (combine (seq 0 (List.length r)) r)) S754_nan = nth c r S754_nan.
Proof.
  intros Hf.
  destruct (Nat.lt_ge_cases c (List.length r)) as [Hc|Hc].
  - apply nth_error_nth. rewrite nth_error_map, nth_error_combine_seq.
    assert (E : nth_error r c = Some (nth c r S754_nan)) by (apply nth_error_nth'; exact Hc).
    rewrite E. simpl. rewrite Hf. reflexivity.
  - rewrite !nth_overflow; [reflexivity|exact Hc|].
    rewrite length_map, length_combine_seq. exact Hc.
Qed.

(** Extra property X8 (src/src/model.js, lines 37-56 and 104-110): a
    column holding only NaN (or no element at all) gets mean 0, std 1 and
    validMask false from [determineMeanAndStddev], whatever the order in
    which the backend sums, provided it sums zeros to +0; and
    [normalizeTensor] with those statistics and that mask returns the
    column unchanged, NaN included. *)
Theorem all_nan_column_passthrough (tf_sum : list float -> float)
    (tf_maximum : float -> float -> float)
    (Hzero : forall n, tf_sum (repeat f32zero n) = f32zero)
    (data : tensor2d) (c : nat) (Hc : c < cols data)
    (Hnan : Forall (fun x => is_nan x = true) (column (rows2d data) c)) :
  let st := determineMeanAndStddev tf_sum tf_maximum data in
  nth_error st c = Some {| dataMean := f32zero; dataStd := f32one; validMask := false |} /\
  column (normalizeTensor (rows2d data) (map dataMean st) (map dataStd st)
            (Some (map validMask st))) c = column (rows2d data) c.
Proof.
  intros st.
  assert (Hcs : column_stats tf_sum tf_maximum (column (rows2d data) c) =
                {| dataMean := f32zero; dataStd := f32one; validMask := false |}).
  { unfold column_stats.
    assert (Hz : map (fun b : bool => if b then f32one else f32zero)
                   (map (fun v => negb (is_nan v)) (column (rows2d data) c)) =
                 repeat f32zero (List.length (column (rows2d data) c))).
    { induction Hnan as [|x l Hx _ IH]; [reflexivity|].
      simpl. rewrite Hx. simpl. f_equal. exact IH. }
    rewrite Hz, Hzero. reflexivity. }
  assert (Hst : nth_error st c = Some {| dataMean := f32zero; dataStd := f32one; validMask := false |}).
  { unfold st, determineMeanAndStddev. rewrite nth_error_map, nth_error_seq.
    destruct (Nat.ltb_spec c (cols data)) as [_|]; [|lia]. simpl. rewrite Hcs. reflexivity. }
  split; [exact Hst|].
  unfold normalizeTensor. apply column_map. intros r.
  apply nth_map_combine_seq. intros x.
  assert (Hm : nth c (map validMask st) false = false).
  { apply nth_error_nth. rewrite nth_error_map, Hst. reflexivity. }
  rewrite Hm. reflexivity.
Qed.

Lemma insert_num_perm (x : float) (l : list float) : Permutation (insert_num x l) (x :: l).
Proof.
  induction l as [|y l IH]; simpl; [reflexivity|].
  destruct (fgt (fsub y x) fzero); [reflexivity|].
  rewrite IH. apply perm_swap.
Qed.

Lemma sort_num_perm (l : list float) : Permutation (sort_num l) l.
Proof.
  unfold sort_num.
  assert (H : forall acc, Permutation (fold_left (fun acc x => insert_num x acc) l acc) (l ++ acc)).
  { induction l as [|x l IH]; intros acc; simpl; [reflexivity|].
    rewrite IH, insert_num_perm. apply Permutation_sym, Permutation_middle. }
  rewrite H, app_nil_r. reflexivity.
Qed.

Lemma median_of_nonempty (l : list float) : l <> [] ->
  median_of l =
    (if Nat.odd (List.length l) then nth (Nat.div (List.length l) 2) (sort_num l) fzero
     else fdiv (fadd (nth (Nat.div (List.length l) 2 - 1) (sort_num l) fzero)
                     (nth (Nat.div (List.length l) 2) (sort_num l) fzero)) (float_of_Z 2)).
Proof.
  intros Hne. rewrite <- (Permutation_length (sort_num_perm l)).
  destruct l; [contradiction|reflexivity].
Qed.

Lemma nth_sorted_In (vals : list float) (k : nat) :
  k < List.length vals -> In (nth k (sort_num vals) fzero) vals.
Proof.
  intros Hk. apply (Permutation_in _ (sort_num_perm vals)).
  apply nth_In. rewrite (Permutation_length (sort_num_perm vals)). exact Hk.
Qed.

(** Extra property X9 (src/src/model.js, lines 64-81): [determineMedian]
    throws on a tensor with no row; otherwise it gives one value per
    column of the first row: 0 for a column with no finite value, the
    binary32 rounding of one of the column's finite values when there is
    an odd number of them, and of the mean of two of them when there is an
    even number. *)
Theorem determineMedian_spec (rows : list (list float)) :
  (rows = [] -> determineMedian rows = None) /\
  (forall r0 rest, rows = r0 :: rest ->
     exists med, determineMedian rows = Some med /\ List.length med = List.length r0 /\
     forall c, c < List.length r0 ->
       let vals := finite_column rows c in
       (vals = [] -> nth_error med c = Some fzero) /\
       (Nat.odd (List.length vals) = true ->
          exists v, In v vals /\ nth_error med c = Some (to_f32 v)) /\
       (vals <> [] -> Nat.even (List.length vals) = true ->
          exists v w, In v vals /\ In w vals /\
            nth_error med c = Some (to_f32 (fdiv (fadd v w) (float_of_Z 2))))).
Proof.
  split; [intros ->; reflexivity|].
  intros r0 rest Hrows.
  set (med := map (fun c => to_f32 (median_of (finite_column rows c))) (seq 0 (List.length r0))).
  exists med. split; [unfold med; clear med; subst rows; reflexivity|].
  split; [unfold med; rewrite length_map, length_seq; reflexivity|].
  intros c Hc. cbv zeta.
  assert (Hm : nth_error med c = Some (to_f32 (median_of (finite_column rows c)))).
  { unfold med. rewrite nth_error_map, nth_error_seq.
    destruct (Nat.ltb_spec c (List.length r0)) as [_|]; [reflexivity|lia]. }
  rewrite Hm.
  clear Hm med. generalize (finite_column rows c). intros vals.
  split; [|split].
  - intros Hv. rewrite Hv. reflexivity.
  - intros Hodd.
    assert (Hn : 0 < List.length vals)
      by (destruct (List.length vals); [discriminate|lia]).
    assert (Hne : vals <> []) by (intros ->; simpl in Hn; lia).
    exists (nth (Nat.div (List.length vals) 2) (sort_num vals) fzero).
    assert (Hv : In (nth (Nat.div (List.length vals) 2) (sort_num vals) fzero) vals)
      by (apply nth_sorted_In; apply Nat.div_lt; lia).
    split; [exact Hv|].
    rewrite (median_of_nonempty vals Hne), Hodd. reflexivity.
  - intros Hne Heven.
    assert (H2 : 2 <= List.length vals).
    { destruct vals as [|v0 [|v1 vs]]; [contradiction|discriminate|simpl; lia]. }
    assert (Hlt : Nat.div (List.length vals) 2 < List.length vals) by (apply Nat.div_lt; lia).
    assert (Hge : 1 <= Nat.div (List.length vals) 2)
      by (apply (Nat.Div0.div_le_mono 2 (List.length vals) 2); lia).
    exists (nth (Nat.div (List.length vals) 2 - 1) (sort_num vals) fzero),
           (nth (Nat.div (List.length vals) 2) (sort_num vals) fzero).
    split; [apply nth_sorted_In; lia|]. split; [apply nth_sorted_In; exact Hlt|].
    assert (Hodd : Nat.odd (List.length vals) = false)
      by (unfold Nat.odd; rewrite Heven; reflexivity).
    rewrite (median_of_nonempty vals Hne), Hodd. reflexivity.
Qed.

Lemma f32_sum_seq_zeros (n : nat) : f32_sum_seq (repeat f32zero n) = f32zero.
Proof.
  unfold f32_sum_seq. induction n as [|n IH]; [reflexivity|].
  cbn [repeat fold_left].
  assert (E : f32add f32zero f32zero = f32zero) by (vm_compute; reflexivity).
  rewrite E. exact IH.
Qed.

(** Witness of X3: the categorical column [HomePlanet] of [rows_missing]. *)
Lemma trained_vocabulary_witness :
  let a := fst (train_preprocess no_number_to_string rows_missing) in
  let name := feature_name (featureNames a) 1 in
  let vocab := vocab_of (vocabByFeature a) name in
  In 1 (stringIndices a) /\
  Sorted str_lt vocab /\ NoDup vocab /\
  (forall t, In t vocab <->
     t = MISSING \/ exists e, In e rows_missing /\ token no_number_to_string (get (xs e) name) = t).
Proof.
  intros a name vocab.
  assert (Hi : In 1 (stringIndices a)) by (vm_compute; left; reflexivity).
  split; [exact Hi|].
  pose proof (trained_vocabulary no_number_to_string rows_missing 1) as T.
  cbv zeta in T. exact (T Hi).
Defined.

(** Witness of X5: the records [rows_test] with probabilities 1 and NaN. *)
Lemma submission_lines_rows_witness :
  let lines := submission_lines no_number_to_string (map passenger_id rows_test)
                 (predictions_of [fone; S754_nan]) in
  List.length [fone; S754_nan] = List.length rows_test /\
  List.length lines = S (List.length rows_test) /\
  nth_error lines 0 = Some "PassengerId,Transported" /\
  (forall i x p, nth_error rows_test i = Some x -> nth_error [fone; S754_nan] i = Some p ->
     nth_error lines (S i) =
     Some (String.append (js_String no_number_to_string (passenger_id x))
             (String.append "," (if SFleb fhalf p then "True" else "False")))) /\
  (forall i x, nth_error rows_test i = Some x -> nth_error [fone; S754_nan] i = Some S754_nan ->
     nth_error lines (S i) =
     Some (String.append (js_String no_number_to_string (passenger_id x)) ",False")).
Proof.
  intros lines.
  assert (Hlen : List.length [fone; S754_nan] = List.length rows_test) by reflexivity.
  split; [exact Hlen|].
  exact (submission_lines_rows no_number_to_string rows_test [fone; S754_nan] Hlen).
Defined.

(** Witness of X7: a row with a NaN cell, filled with zeros. *)
Lemma imputeNaN_cells_witness :
  let data := [[S754_nan; fone]] in
  let fillValues := [fzero; fzero] in
  let out := imputeNaN data fillValues in
  (forall r, In r data -> List.length r = List.length fillValues) /\
  List.length out = List.length data /\
  (forall i r, nth_error data i = Some r ->
     exists r', nth_error out i = Some r' /\ List.length r' = List.length r /\
     forall c x, nth_error r c = Some x ->
       nth_error r' c = Some (if is_nan x then nth c fillValues S754_nan else x)) /\
  (forallb (fun f => negb (is_nan f)) fillValues = true ->
     forall r', In r' out -> forall y, In y r' -> is_nan y = false).
Proof.
  intros data fillValues out.
  assert (Hshape : forall r, In r data -> List.length r = List.length fillValues)
    by (intros r [<-|[]]; reflexivity).
  split; [exact Hshape|].
  exact (imputeNaN_cells data fillValues Hshape).
Defined.

(** Witness of X8: the first column of [tensor_nan_col], with a sequential
    [sum]. *)
Lemma all_nan_column_passthrough_witness :
  let st := determineMeanAndStddev f32_sum_seq f32_maximum tensor_nan_col in
  (0 < cols tensor_nan_col) /\
  Forall (fun x => is_nan x = true) (column (rows2d tensor_nan_col) 0) /\
  nth_error st 0 = Some {| dataMean := f32zero; dataStd := f32one; validMask := false |} /\
  column (normalizeTensor (rows2d tensor_nan_col) (map dataMean st) (map dataStd st)
            (Some (map validMask st))) 0 = column (rows2d tensor_nan_col) 0.
Proof.
  intros st.
  assert (Hc : 0 < cols tensor_nan_col) by (vm_compute; lia).
  assert (Hnan : Forall (fun x => is_nan x = true) (column (rows2d tensor_nan_col) 0))
    by (vm_compute; repeat constructor).
  split; [exact Hc|]. split; [exact Hnan|].
  exact (all_nan_column_passthrough f32_sum_seq f32_maximum f32_sum_seq_zeros
           tensor_nan_col 0 Hc Hnan).
Defined.
